(** * EnvDict: the layered configuration dictionary of ploomber

    A shallow embedding of [src/ploomber/env/EnvDict.py].  Python objects
    live in a store of mutable objects addressed by references, so that
    two names bound to one dictionary see each other's writes.  Calls to
    collaborators that are not part of the file (the filesystem, the
    import system, the key validator, the placeholder expander) are
    answered by a [World] and recorded in a call log.

    Modelled: the constructor for a mapping, a path or [None] as source,
    [load_from_source], [raw_preprocess], [find_env_w_name], lookup, item
    assignment, iteration, length, representation and the override
    methods, and attribute-style access ([__getattr__]).  Not modelled:
    [__str__], the [path_to_env] property and the constructor applied to
    another [EnvDict]. *)

From Stdlib Require Import ZArith Lia Ascii.
From stdpp Require Import list strings.

Local Open Scope string_scope.
Local Open Scope list_scope.
Set Warnings "-register-all".

(** ** Values and the object store *)

(** A reference into the store: the position of the object in it. *)
Abbreviation loc := nat (only parsing).

(** Python values as the file meets them.  A dictionary is a reference:
    assignment through one alias is seen through every other. *)
Inductive value : Type :=
| VNone
| VBool (b : bool)
| VInt (n : Z)
| VStr (s : string)
| VPath (p : string)
| VList (xs : list value)
| VDict (l : loc).

(** The content of a [dict] object, in insertion order. *)
Definition dict := list (string * value).

(** An [EnvironmentExpander] (ploomber/env/expand.py, outside the file),
    known by the arguments it was constructed with. *)
Record Expander : Type := {
  exp_preprocessed : loc;
  exp_path_to_here : option string
}.

(** The attributes of an [EnvDict] instance; [_repr] is a [reprlib.Repr()]
    with its default limits. *)
Record EnvDictObj : Type := {
  _path_to_env : option string;
  _preprocessed : loc;
  _expander : Expander;
  _data : loc;
  _repr : unit
}.

Inductive obj : Type :=
| ODict (d : dict)
| OEnvDict (e : EnvDictObj).

Abbreviation heap := (list obj) (only parsing).

(** Exceptions.  The design document calls [KeyError] "KeyNotFound",
    the [ValueError] of the override prefix check "InvalidArgument" and the
    [ValueError]s of [raw_preprocess] and of loading "ConfigError". *)
Inductive exn : Type :=
| KeyError (msg : string)
| ValueError (msg : string)
| FileNotFoundError (msg : string)
| TypeError
| AttributeError
| IndexError
| UnboundLocalError
| ModuleNotFoundError (msg : string)
| OtherError (msg : string).

Inductive result (A : Type) : Type :=
| Ok (a : A)
| Err (e : exn).
Arguments Ok {A} a.
Arguments Err {A} e.

(** ** Documents as they come out of a YAML file or a dict literal *)

Inductive tree : Type :=
| TNone
| TBool (b : bool)
| TInt (n : Z)
| TStr (s : string)
| TList (ts : list tree)
| TMap (kvs : list (string * tree)).

(** ** Calls to collaborators outside the file *)

Inductive call : Type :=
| CExists (p : string)
| CIsFile (p : string)
| CFindSpec (m : string)
| CFindRoot
| CFindFile (name : string)
| COpen (p : string)
| CValidate (d : dict)
| CExpandDict (e : Expander) (d : dict)
| CExpandValue (e : Expander) (v : value) (keys : list string).

(** What [open] followed by [yaml.load] does with a file. *)
Inductive yaml_outcome : Type :=
| OpenFails (e : exn)
| ParseFails (e : exn)
| Parsed (doc : tree).

(** What [importlib.util.find_spec] does with a name: it raises (for a
    dotted name whose parent cannot be imported, [ModuleNotFoundError]),
    it finds no spec, or it finds one, whose [origin] is [None] when the
    module has no defining file (a namespace package). *)
Inductive spec_outcome : Type :=
| SpecRaises (e : exn)
| NoSpec
| Spec (origin : option string).

Record World : Type := {
  (* pathlib *)
  path_exists : string -> bool;
  path_is_file : string -> bool;
  path_parent : string -> string;
  path_resolve : string -> string;
  (* importlib.util.find_spec *)
  find_spec : string -> spec_outcome;
  (* ploomber.util.default *)
  find_root_recursively : option string;
  find_file_recursively : string -> option string;
  (* platform.node *)
  platform_node : string;
  (* open + yaml.load *)
  open_yaml : string -> yaml_outcome;
  (* ploomber.env.validate.raw_data_keys: None when the keys are fine *)
  raw_data_keys : heap -> dict -> option exn;
  (* ploomber.env.expand.EnvironmentExpander: the dictionary method may
     allocate, the value method only reads *)
  expand_raw_dictionary : Expander -> heap -> loc -> result loc * heap;
  expand_raw_value : Expander -> heap -> value -> list string -> result value;
  (* reprlib.Repr().repr_dict(d, level) *)
  repr_dict : heap -> loc -> nat -> string
}.

(** ** The monad: a store, a call log, and exceptions

    An exception leaves the store as it was when it was raised. *)
Record state : Type := {
  store : heap;
  calls : list call
}.

Definition M (A : Type) : Type := state -> result A * state.

Definition ret {A} (a : A) : M A := fun st => (Ok a, st).
Definition raise {A} (e : exn) : M A := fun st => (Err e, st).
Definition bind {A B} (m : M A) (f : A -> M B) : M B :=
  fun st => match m st with
            | (Ok a, st') => f a st'
            | (Err e, st') => (Err e, st')
            end.

Notation "'let*' x := m 'in' k" := (bind m (fun x => k))
  (at level 10, x name, m at level 100, k at level 200, only parsing).
Notation "m ;;; k" := (bind m (fun _ => k))
  (at level 100, k at level 200, right associativity, only parsing).

Definition lift {A} (r : result A) : M A := fun st => (r, st).
Definition log (c : call) : M unit :=
  fun st => (Ok tt, {| store := store st; calls := calls st ++ [c] |}).
Definition get_store : M heap := fun st => (Ok (store st), st).

(** ** Dictionaries *)

(** [d.get(k)], as an option: [None] when [k] is not a key of [d]. *)
Fixpoint dict_get (d : dict) (k : string) : option value :=
  match d with
  | [] => None
  | (k', v) :: r => if String.eqb k' k then Some v else dict_get r k
  end.

(** [d[k] = v]: an existing key keeps its place, a new key goes last. *)
Fixpoint dict_set (d : dict) (k : string) (v : value) : dict :=
  match d with
  | [] => [(k, v)]
  | (k', v') :: r =>
      if String.eqb k' k then (k', v) :: r else (k', v') :: dict_set r k v
  end.

Definition dict_keys (d : dict) : list string := map fst d.

(** [{**a, **b}]: a new dictionary, the items of [a] then those of [b]. *)
Definition dict_merge (a b : dict) : dict :=
  fold_left (fun acc kv => dict_set acc (fst kv) (snd kv)) (a ++ b) [].

(** ** Store operations *)

Definition alloc (o : obj) : M loc :=
  fun st => (Ok (List.length (store st)),
             {| store := store st ++ [o]; calls := calls st |}).

Definition read_dict (l : loc) : M dict :=
  fun st => match store st !! l with
            | Some (ODict d) => (Ok d, st)
            | _ => (Err TypeError, st)
            end.

Definition write_dict (l : loc) (d : dict) : M unit :=
  fun st => (Ok tt, {| store := <[l := ODict d]> (store st);
                       calls := calls st |}).

Definition read_inst (self : loc) : M EnvDictObj :=
  fun st => match store st !! self with
            | Some (OEnvDict e) => (Ok e, st)
            | _ => (Err AttributeError, st)
            end.

(** [v[k]] with a string [k]: only a dictionary can be indexed by a
    string; a missing key raises [KeyError(k)]. *)
Definition subscript (v : value) (k : string) : M value :=
  match v with
  | VDict l =>
      let* d := read_dict l in
      match dict_get d k with
      | Some x => ret x
      | None => raise (KeyError k)
      end
  | _ => raise TypeError
  end.

(** [v.get(k)]: only a dictionary has the method; an absent key gives
    [None]. *)
Definition get_method (v : value) (k : string) : M value :=
  match v with
  | VDict l =>
      let* d := read_dict l in
      ret (match dict_get d k with Some x => x | None => VNone end)
  | _ => raise AttributeError
  end.

(** [v[k] = x]. *)
Definition setitem (v : value) (k : string) (x : value) : M unit :=
  match v with
  | VDict l => let* d := read_dict l in write_dict l (dict_set d k x)
  | _ => raise TypeError
  end.

(** [k in v] for a dictionary [v]. *)
Definition contains (v : value) (k : string) : M bool :=
  match v with
  | VDict l =>
      let* d := read_dict l in
      ret (match dict_get d k with Some _ => true | None => false end)
  | _ => raise TypeError
  end.

Definition is_none (v : value) : bool :=
  match v with VNone => true | _ => false end.

(** Truth value of [v] in an [if]. *)
Definition truthy (v : value) : M bool :=
  match v with
  | VNone => ret false
  | VBool b => ret b
  | VInt n => ret (negb (Z.eqb n 0))
  | VStr s => ret (negb (String.eqb s ""))
  | VPath _ => ret true
  | VList xs => ret (match xs with [] => false | _ => true end)
  | VDict l => let* d := read_dict l in
               ret (match d with [] => false | _ => true end)
  end.

(** ** Strings and lists *)

Definition dquote : string :=
  String (Ascii.Ascii false true false false false true false false) "".

(** [s.split(sep)] for a non-empty [sep]: the separators are found from
    the left and do not overlap.  [skip] counts the characters of a
    separator still to be passed over, [cur] is the piece being read. *)
Fixpoint split_go (sep : string) (skip : nat) (cur : string) (s : string)
  : list string :=
  match s with
  | EmptyString => [cur]
  | String c rest =>
      match skip with
      | S n => split_go sep n cur rest
      | O =>
          if String.prefix sep s
          then cur :: split_go sep (String.length sep - 1) "" rest
          else split_go sep 0 (cur +:+ String c "") rest
      end
  end.

Definition split (s sep : string) : list string := split_go sep 0 "" s.

(** [xs[-1]]. *)
Definition last_item (xs : list string) : result string :=
  match last xs with
  | Some x => Ok x
  | None => Err IndexError
  end.

(** [xs[:-1]]. *)
Definition all_but_last (xs : list string) : list string :=
  take (List.length xs - 1) xs.

(** [sep.join(xs)]. *)
Definition join (sep : string) (xs : list string) : string :=
  String.concat sep xs.

(** ** Loading and preprocessing *)

Section Loading.

Variable W : World.

(** A parsed document becomes objects in the store: every mapping is a
    new dictionary. *)
Fixpoint alloc_tree (t : tree) : M value :=
  match t with
  | TNone => ret VNone
  | TBool b => ret (VBool b)
  | TInt n => ret (VInt n)
  | TStr s => ret (VStr s)
  | TList ts =>
      let* vs :=
        (fix go (ts : list tree) : M (list value) :=
           match ts with
           | [] => ret []
           | t :: r => let* v := alloc_tree t in
                       let* vs := go r in ret (v :: vs)
           end) ts in
      ret (VList vs)
  | TMap kvs =>
      let* d :=
        (fix go (kvs : list (string * tree)) : M dict :=
           match kvs with
           | [] => ret []
           | (k, t) :: r => let* v := alloc_tree t in
                            let* d := go r in ret ((k, v) :: d)
           end) kvs in
      let* l := alloc (ODict (dict_merge [] d)) in
      ret (VDict l)
  end.

(** The value [v] in the store [h] holds the document [t]: scalars are
    equal, a sequence holds its elements in order, and a mapping is a
    reference to a dictionary built by binding the document's keys in
    order to values that hold what the document puts under them. *)
Fixpoint represents (h : heap) (t : tree) (v : value) {struct t} : Prop :=
  match t, v with
  | TNone, VNone => True
  | TBool b, VBool b' => b = b'
  | TInt n, VInt n' => n = n'
  | TStr s, VStr s' => s = s'
  | TList ts, VList vs =>
      (fix all (ts : list tree) (vs : list value) {struct ts} : Prop :=
         match ts, vs with
         | [], [] => True
         | t :: r, v :: r' => represents h t v /\ all r r'
         | _, _ => False
         end) ts vs
  | TMap kvs, VDict l =>
      exists d,
        h !! l = Some (ODict (dict_merge [] d)) /\
        (fix all (kvs : list (string * tree)) (d : dict) {struct kvs}
           : Prop :=
           match kvs, d with
           | [], [] => True
           | (k, t) :: r, (k', v) :: r' =>
               k = k' /\ represents h t v /\ all r r'
           | _, _ => False
           end) kvs d
  | _, _ => False
  end.

(** [type(raw).__name__]. *)
Definition type_name (t : tree) : string :=
  match t with
  | TNone => "NoneType"
  | TBool _ => "bool"
  | TInt _ => "int"
  | TStr _ => "str"
  | TList _ => "list"
  | TMap _ => "dict"
  end.

(** What a caller may pass as [source]: a mapping, [None], or the path of
    a YAML file.  (The constructor also accepts another [EnvDict], whose
    attributes it deep-copies; that path is outside this model.) *)
Inductive source : Type :=
| SrcMapping (l : loc)
| SrcNone
| SrcPath (p : string).

Definition call_find_file (name : string) : M (option string) :=
  log (CFindFile name) ;;; ret (find_file_recursively W name).

Definition find_env_w_name (name : string) : M (option string) :=
  let* path := call_find_file ("env." +:+ name +:+ ".yaml") in
  match path with
  | None => call_find_file "env.yaml"
  | Some p => ret (Some p)
  end.

Definition call_exists (p : string) : M bool :=
  log (CExists p) ;;; ret (path_exists W p).

Definition call_is_file (p : string) : M bool :=
  log (CIsFile p) ;;; ret (path_is_file W p).

(** The [with open(...)] block of [load_from_source].  When [yaml.load]
    raises, the [finally] clause reads [raw] before it was ever bound. *)
Definition load_yaml (src : string) : M loc :=
  log (COpen src) ;;;
  match open_yaml W src with
  | OpenFails e => raise e
  | ParseFails _ => raise UnboundLocalError
  | Parsed doc =>
      let* raw := alloc_tree doc in
      match raw with
      | VDict l => ret l
      | _ =>
          raise (ValueError ("Expected object loaded from '" +:+ src
                   +:+ "' to be a dict but got '" +:+ type_name doc
                   +:+ "' instead, verify the content"))
      end
  end.

Definition load_from_source (src : source) : M (loc * option string) :=
  match src with
  | SrcMapping l => ret (l, None)
  | SrcNone =>
      let name := platform_node W in
      let* path_found := find_env_w_name name in
      match path_found with
      | None =>
          raise (FileNotFoundError
                   ("Tried to initialize environment with None, but "
                    +:+ "automatic file search failed to locate env."
                    +:+ name +:+ ".yaml nor env.yaml in the current "
                    +:+ "directory nor 6 levels up"))
      | Some p =>
          let* raw := load_yaml p in
          ret (raw, Some (path_resolve W p))
      end
  | SrcPath p =>
      let* ex := call_exists p in
      let* p' :=
        (if negb ex
         then
           let* source_found := call_find_file p in
           match source_found with
           | None =>
               raise (FileNotFoundError
                        ("Could not find file " +:+ dquote +:+ p +:+ dquote
                         +:+ " in the current working directory nor "
                         +:+ "6 levels up"))
           | Some q => ret q
           end
         else ret p) in
      let* raw := load_yaml p' in
      ret (raw, Some (path_resolve W p'))
  end.

(** [Path(v)]. *)
Definition Path (v : value) : M string :=
  match v with
  | VStr s => ret s
  | VPath p => ret p
  | _ => raise TypeError
  end.

(** [importlib.util.find_spec(v)]: what the lookup raises is raised;
    otherwise [None], or the [origin] of the spec found, itself [None]
    when the spec has none. *)
Definition call_find_spec (v : value) : M (option (option string)) :=
  match v with
  | VStr m =>
      log (CFindSpec m) ;;;
      match find_spec W m with
      | SpecRaises e => raise e
      | NoSpec => ret None
      | Spec origin => ret (Some origin)
      end
  | _ => raise AttributeError
  end.

(** [v == '{{here}}']. *)
Definition is_here (v : value) : bool :=
  match v with
  | VStr s => String.eqb s "{{here}}"
  | _ => false
  end.

(** ['{}'.format(v)] for the values [Path] accepts. *)
Definition format (v : value) : string :=
  match v with
  | VStr s => s
  | VPath p => p
  | _ => ""
  end.

Definition raw_preprocess (raw : loc) (path_to_raw : option string)
  : M loc :=
  let* module := get_method (VDict raw) "_module" in
  let* preprocessed := alloc (ODict []) in
  let* is_set := truthy module in
  if is_set
  then
    let* m := subscript (VDict raw) "_module" in
    (if is_here m
     then
       match path_to_raw with
       | Some p =>
           setitem (VDict preprocessed) "_module"
                   (VPath (path_parent W p))
       | None =>
           raise (ValueError ("_module cannot be {{here}} if "
                              +:+ "not loaded from a file"))
       end
     else
       let* as_path := Path module in
       let* ex := call_exists as_path in
       let* path_to_module :=
         (if ex
          then
            let* is_f := call_is_file as_path in
            if is_f
            then raise (ValueError
                          ("Could not resolve _module " +:+ dquote
                           +:+ format module +:+ dquote
                           +:+ ", expected a module or a directory but "
                           +:+ "got a file"))
            else ret as_path
          else
            let* module_spec := call_find_spec module in
            match module_spec with
            | None =>
                raise (ValueError
                         ("Could not resolve _module " +:+ dquote
                          +:+ format module +:+ dquote
                          +:+ ", it is not a valid module "
                          +:+ "nor a directory"))
            | Some origin =>
                (* Path(module_spec.origin).parent *)
                match origin with
                | Some o => ret (path_parent W o)
                | None => raise TypeError
                end
            end) in
       setitem (VDict preprocessed) "_module" (VPath path_to_module)) ;;;
    ret preprocessed
  else ret preprocessed.

End Loading.

(** ** The class [EnvDict] *)

Section EnvDict.

Variable W : World.

(** *** Lookup *)

(** Modelled from the spec: [FrozenJSON] (ploomber/env/FrozenJSON.py is
    not part of the file) wraps the value a lookup returns: a mapping
    becomes a read-only view of that mapping, a sequence the sequence of
    its wrapped elements, any other value is returned as it is. *)
Inductive frozen : Type :=
| FrozenView (l : loc)
| FrozenList (xs : list frozen)
| Plain (v : value).

Fixpoint FrozenJSON (v : value) : frozen :=
  match v with
  | VDict l => FrozenView l
  | VList xs => FrozenList (map FrozenJSON xs)
  | _ => Plain v
  end.

(** Modelled from the spec: a read-only view is navigated by index, and
    what it answers is wrapped in turn; it has no operation that writes. *)
Definition frozen_getitem (f : frozen) (key : string) : M frozen :=
  match f with
  | FrozenView l => let* v := subscript (VDict l) key in ret (FrozenJSON v)
  | _ => raise TypeError
  end.



Definition _getitem (self : loc) (key : string) : M frozen :=
  let* inst := read_inst self in
  let* found := contains (VDict (_preprocessed inst)) key in
  if found
  then let* v := subscript (VDict (_preprocessed inst)) key in ret (FrozenJSON v)
  else let* v := subscript (VDict (_data inst)) key in ret (FrozenJSON v).

Definition __repr__ (self : loc) : M string :=
  let* inst := read_inst self in
  let* h := get_store in
  let content := repr_dict W h (_data inst) 2 in
  ret ("EnvDict(" +:+ content +:+ ")").

(** [try: ... except KeyError as e: e.args = (msg, ); raise]. *)
Definition __getitem__ (self : loc) (key : string) : M frozen :=
  fun st =>
    match _getitem self key st with
    | (Err (KeyError _), st') =>
        (let* r := __repr__ self in
         let msg := r +:+ " object has no key '" +:+ key +:+ "'" in
         raise (KeyError msg)) st'
    | other => other
    end.

Definition __setitem__ (self : loc) (key : string) (v : value) : M unit :=
  let* inst := read_inst self in
  setitem (VDict (_data inst)) key v.

Definition __iter__ (self : loc) : M (list string) :=
  let* inst := read_inst self in
  let* d := read_dict (_data inst) in
  ret (dict_keys d).

Definition __len__ (self : loc) : M nat :=
  let* inst := read_inst self in
  let* d := read_dict (_data inst) in
  ret (List.length d).

(** *** Overrides *)

(** [copy(self)] from the [copy] module: a new instance whose attributes
    are bound to the very objects the attributes of [self] are bound to. *)
Definition copy (self : loc) : M loc :=
  let* inst := read_inst self in
  alloc (OEnvDict inst).

(** [for e in keys: d = d[e]]. *)
Fixpoint descend (d : value) (keys : list string) : M value :=
  match keys with
  | [] => ret d
  | e :: r => let* d' := subscript d e in descend d' r
  end.

Definition expand_value (e : Expander) (v : value) (keys : list string)
  : M value :=
  let* h := get_store in
  log (CExpandValue e v keys) ;;;
  lift (expand_raw_value W e h v keys).

Definition _replace_value (self : loc) (v : value) (keys_all : list string)
  : M unit :=
  let keys_to_final_dict := all_but_last keys_all in
  let* key_to_edit := lift (last_item keys_all) in
  let* inst := read_inst self in
  let* dict_to_edit := descend (VDict (_data inst)) keys_to_final_dict in
  let* current := get_method dict_to_edit key_to_edit in
  if is_none current
  then
    let dotted_path := join "." keys_all in
    raise (KeyError ("Trying to replace key " +:+ dquote +:+ dotted_path
                     +:+ dquote +:+ " in env, but it does not exist"))
  else
    let* x := expand_value (_expander inst) v keys_all in
    setitem dict_to_edit key_to_edit x.

Definition _inplace_replace_flatten_key (self : loc) (v : value)
  (key_flatten : string) : M unit :=
  let parts := split key_flatten "__" in
  match parts with
  | [] => raise IndexError
  | p0 :: keys_all =>
      if negb (String.eqb p0 "env")
      then raise (ValueError "keys_flatten must start with env__")
      else _replace_value self v keys_all
  end.

Definition _replace_flatten_key (self : loc) (v : value)
  (key_flatten : string) : M loc :=
  let* o := copy self in
  _inplace_replace_flatten_key o v key_flatten ;;;
  ret o.

(** [for key, value in to_replace.items(): ...]. *)
Fixpoint _inplace_replace_flatten_keys (self : loc) (to_replace : dict)
  : M unit :=
  match to_replace with
  | [] => ret tt
  | (key, v) :: r =>
      _inplace_replace_flatten_key self v key ;;;
      _inplace_replace_flatten_keys self r
  end.

Definition _replace_flatten_keys (self : loc) (to_replace : dict) : M loc :=
  let* o := copy self in
  _inplace_replace_flatten_keys o to_replace ;;;
  ret o.

(** *** Construction *)

Definition _default_dict (include_here : bool) : M loc :=
  let* placeholders :=
    alloc (ODict [("user", VStr "{{user}}"); ("cwd", VStr "{{cwd}}")]) in
  log CFindRoot ;;;
  (match find_root_recursively W with
   | Some _ => setitem (VDict placeholders) "root" (VStr "{{root}}")
   | None => ret tt
   end) ;;;
  (if include_here
   then setitem (VDict placeholders) "here" (VStr "{{here}}")
   else ret tt) ;;;
  ret placeholders.

(** [validate.raw_data_keys(raw_data)]. *)
Definition validate_raw_data_keys (raw_data : loc) : M unit :=
  let* d := read_dict raw_data in
  let* h := get_store in
  log (CValidate d) ;;;
  match raw_data_keys W h d with
  | Some e => raise e
  | None => ret tt
  end.

(** [expander.expand_raw_dictionary(raw_data)]. *)
Definition expand_dictionary (e : Expander) (raw_data : loc) : M loc :=
  let* d := read_dict raw_data in
  log (CExpandDict e d) ;;;
  fun st =>
    let '(r, h) := expand_raw_dictionary W e (store st) raw_data in
    (r, {| store := h; calls := calls st |}).

(** The constructor, for a [source] that is not an [EnvDict]. *)
Definition __init__ (src : source) (path_to_here : option string) : M loc :=
  let* loaded := load_from_source W src in
  let raw_data := fst loaded in
  let path_to_env := snd loaded in
  let* defaults :=
    _default_dict (match path_to_here with Some _ => true | None => false end)
  in
  let* a := read_dict defaults in
  let* b := read_dict raw_data in
  let* raw_data := alloc (ODict (dict_merge a b)) in
  validate_raw_data_keys raw_data ;;;
  let* preprocessed := raw_preprocess W raw_data path_to_env in
  let path_to_here :=
    match path_to_here with
    | None =>
        match path_to_env with
        | None => None
        | Some p => Some (path_parent W p)
        end
    | Some p => Some (path_resolve W p)
    end in
  let expander := {| exp_preprocessed := preprocessed;
                     exp_path_to_here := path_to_here |} in
  let* data := expand_dictionary expander raw_data in
  alloc (OEnvDict {| _path_to_env := path_to_env;
                     _preprocessed := preprocessed;
                     _expander := expander;
                     _data := data;
                     _repr := tt |}).

Definition default (path_to_here : option string) : M loc :=
  let* placeholders :=
    _default_dict (match path_to_here with Some _ => true | None => false end)
  in
  __init__ (SrcMapping placeholders) path_to_here.

End EnvDict.

(** ** Attribute access *)

Section Attributes.

Variable W : World.

(** [s.startswith(p)]. *)
Definition startswith (s p : string) : bool := String.prefix p s.

(** [s.endswith(p)]. *)
Definition endswith (s p : string) : bool :=
  Nat.leb (String.length p) (String.length s)
  && String.eqb
       (String.substring (String.length s - String.length p)
                         (String.length p) s)
       p.

(** [key in self], as [collections.abc.Mapping] defines it: the item is
    looked up and a [KeyError] means no. *)
Definition __contains__ (self : loc) (key : string) : M bool :=
  fun st =>
    match __getitem__ W self key st with
    | (Ok _, st') => (Ok true, st')
    | (Err (KeyError _), st') => (Ok false, st')
    | (Err e, st') => (Err e, st')
    end.

(** Called when the ordinary attribute lookup finds nothing. *)
Definition __getattr__ (self : loc) (key : string) : M frozen :=
  if startswith key "__" && endswith key "__"
  then raise AttributeError
  else
    let* found := __contains__ self key in
    if found
    then __getitem__ W self key
    else (__repr__ W self ;;; raise AttributeError).

End Attributes.

(** ** A sample world

    One concrete filesystem, import system and expander, to run the
    definitions on. *)

Module Sample.

Definition parent (p : string) : string :=
  match join "/" (all_but_last (split p "/")) with
  | EmptyString => if String.prefix "/" p then "/" else "."
  | q => q
  end.

Definition mem (x : string) (xs : list string) : bool :=
  existsb (String.eqb x) xs.

(** The placeholder table of an expander. *)
Definition table (e : Expander) : list (string * string) :=
  [("user", "alice"); ("cwd", "/work"); ("root", "/proj")]
  ++ match exp_path_to_here e with
     | Some p => [("here", p)]
     | None => []
     end.

Fixpoint table_get (t : list (string * string)) (k : string)
  : option string :=
  match t with
  | [] => None
  | (k', v) :: r => if String.eqb k' k then Some v else table_get r k
  end.

(** Modelled from the spec: the placeholder expander
    (ploomber/env/expand.py is not part of the file) scans a string for
    [{{identifier}}] tokens and substitutes each with the value the table
    gives it; an unknown token is an error.  [tok] is the identifier being
    read, if any, and [out] the text produced so far. *)
Fixpoint render (t : list (string * string)) (tok : option string)
  (out s : string) : result string :=
  match s with
  | EmptyString =>
      match tok with
      | None => Ok out
      | Some _ => Err (ValueError "unclosed placeholder")
      end
  | String c r =>
      match tok with
      | None =>
          match r with
          | String c' r' =>
              if Ascii.eqb c "{"%char && Ascii.eqb c' "{"%char
              then render t (Some "") out r'
              else render t None (out +:+ String c "") r
          | EmptyString => Ok (out +:+ String c "")
          end
      | Some name =>
          match r with
          | String c' r' =>
              if Ascii.eqb c "}"%char && Ascii.eqb c' "}"%char
              then
                match table_get t name with
                | Some x => render t None (out +:+ x) r'
                | None => Err (ValueError ("unknown placeholder " +:+ name))
                end
              else render t (Some (name +:+ String c "")) out r
          | EmptyString => Err (ValueError "unclosed placeholder")
          end
      end
  end.

(** Modelled from the spec: a mapping expands to a new mapping, a
    sequence to a new sequence, a string has its tokens substituted, any
    other scalar passes through.  [fuel] bounds the nesting. *)
Fixpoint expand (fuel : nat) (t : list (string * string)) (v : value)
  : M value :=
  match fuel with
  | O => raise (OtherError "nesting too deep")
  | S n =>
      match v with
      | VStr s => let* s' := lift (render t None "" s) in ret (VStr s')
      | VList xs =>
          let* ys :=
            (fix go (xs : list value) : M (list value) :=
               match xs with
               | [] => ret []
               | x :: r => let* y := expand n t x in
                           let* ys := go r in ret (y :: ys)
               end) xs in
          ret (VList ys)
      | VDict l =>
          let* d := read_dict l in
          let* d' :=
            (fix go (d : dict) : M dict :=
               match d with
               | [] => ret []
               | (k, x) :: r => let* y := expand n t x in
                                let* d' := go r in ret ((k, y) :: d')
               end) d in
          let* l' := alloc (ODict d') in
          ret (VDict l')
      | _ => ret v
      end
  end.

Definition expand_dict (e : Expander) (h : heap) (raw : loc)
  : result loc * heap :=
  match expand 64 (table e) (VDict raw) {| store := h; calls := [] |} with
  | (Ok (VDict l), st) => (Ok l, store st)
  | (Ok _, st) => (Err TypeError, store st)
  | (Err x, st) => (Err x, store st)
  end.

Definition expand_scalar (e : Expander) (h : heap) (v : value)
  (keys : list string) : result value :=
  match v with
  | VStr s =>
      match render (table e) None "" s with
      | Ok s' => Ok (VStr s')
      | Err x => Err x
      end
  | _ => Ok v
  end.

Definition world : World := {|
  path_exists p :=
    mem p ["/proj"; "/proj/env.yaml"; "/proj/pkg"; "/proj/pkg/__init__.py"];
  path_is_file p := mem p ["/proj/env.yaml"; "/proj/pkg/__init__.py"];
  path_parent := parent;
  path_resolve p := p;
  find_spec m :=
    if String.eqb m "pkg" then Spec (Some "/proj/pkg/__init__.py")
    else if String.eqb m "ns" then Spec None
    else
      match split m "." with
      | parent :: _ :: _ =>
          if mem parent ["pkg"; "ns"] then NoSpec
          else SpecRaises
                 (ModuleNotFoundError ("No module named '" +:+ parent +:+ "'"))
      | _ => NoSpec
      end;
  find_root_recursively := Some "/proj";
  find_file_recursively name :=
    if String.eqb name "env.yaml" then Some "/proj/env.yaml" else None;
  platform_node := "host";
  open_yaml p :=
    if String.eqb p "/proj/env.yaml"
    then Parsed (TMap [("a", TMap [("b", TInt 1)]);
                       ("_module", TStr "{{here}}")])
    else OpenFails (FileNotFoundError p);
  raw_data_keys _ _ := None;
  expand_raw_dictionary := expand_dict;
  expand_raw_value := expand_scalar;
  repr_dict _ _ _ := "{...}"
|}.

Definition empty : state := {| store := []; calls := [] |}.

(** [EnvDict(doc, path_to_here=...)] for a dict literal [doc]. *)
Definition construct (doc : tree) (path_to_here : option string) : M loc :=
  let* src := alloc_tree doc in
  match src with
  | VDict l => __init__ world (SrcMapping l) path_to_here
  | _ => raise TypeError
  end.

(** [env[k1][k2]]. *)
Definition get2 (self : loc) (k1 k2 : string) : M frozen :=
  let* f := __getitem__ world self k1 in
  frozen_getitem f k2.

Definition doc_ab : tree := TMap [("a", TMap [("b", TInt 1)])].

Definition doc_here : tree :=
  TMap [("a", TMap [("b", TInt 1)]); ("_module", TStr "{{here}}")].

Definition doc_null : tree := TMap [("a", TNone)].

Definition doc_pkg : tree := TMap [("_module", TStr "pkg")].

Definition doc_user : tree :=
  TMap [("user", TStr "bob"); ("a", TMap [("b", TInt 1)])].

(** A store holding the raw mapping [{'_module': tok}] at reference 0. *)
Definition raw_with_module (tok : string) : state :=
  {| store := [ODict [("_module", VStr tok)]]; calls := [] |}.

(** The state once the dict literal [doc] is evaluated. *)
Definition literal (doc : tree) : state := snd (alloc_tree doc empty).

(** The state after [EnvDict(doc)]; the instance is the last object. *)
Definition built (doc : tree) : state := snd (construct doc None empty).

(** The instance [EnvDict({'a': {'b': 1}})] makes, at reference 7. *)
Definition inst_ab : EnvDictObj :=
  {| _path_to_env := None;
     _preprocessed := 4;
     _expander := {| exp_preprocessed := 4; exp_path_to_here := None |};
     _data := 6;
     _repr := tt |}.

(** The instance [EnvDict({'a': None})] makes, at reference 5. *)
Definition inst_null : EnvDictObj :=
  {| _path_to_env := None;
     _preprocessed := 3;
     _expander := {| exp_preprocessed := 3; exp_path_to_here := None |};
     _data := 4;
     _repr := tt |}.

(** A store holding the raw mapping [{'_module': v}] at reference 0. *)
Definition raw_with_value (v : value) : state :=
  {| store := [ODict [("_module", v)]]; calls := [] |}.

Definition doc_bad : tree := TMap [("a__b", TInt 1)].

(** The sample world with a validator that rejects a raw mapping one of
    whose top-level keys holds a double underscore. *)
Definition strict : World := {|
  path_exists := path_exists world;
  path_is_file := path_is_file world;
  path_parent := path_parent world;
  path_resolve := path_resolve world;
  find_spec := find_spec world;
  find_root_recursively := find_root_recursively world;
  find_file_recursively := find_file_recursively world;
  platform_node := platform_node world;
  open_yaml := open_yaml world;
  raw_data_keys _ d :=
    if existsb (fun k => negb (Nat.eqb (List.length (split k "__")) 1))
               (dict_keys d)
    then Some (ValueError "keys must not hold double underscores")
    else None;
  expand_raw_dictionary := expand_raw_dictionary world;
  expand_raw_value := expand_raw_value world;
  repr_dict := repr_dict world
|}.

End Sample.

(** ** What the statements speak of *)

(** A Python dictionary holds a key once. *)
Definition wf_dict (d : dict) : Prop := NoDup (dict_keys d).

(** The exceptions the file raises, with their messages. *)
Definition prefix_error : exn :=
  ValueError "keys_flatten must start with env__".

Definition missing_key_error (keys_all : list string) : exn :=
  KeyError ("Trying to replace key " +:+ dquote +:+ join "." keys_all
            +:+ dquote +:+ " in env, but it does not exist").

(** The call [expand_raw_value] answers in [st]. *)
Definition logged (e : Expander) (v : value) (keys : list string)
  (st : state) : state :=
  {| store := store st; calls := calls st ++ [CExpandValue e v keys] |}.

(** The state once [copy] has allocated its instance. *)
Definition with_copy (e : EnvDictObj) (st : state) : state :=
  {| store := store st ++ [OEnvDict e]; calls := calls st |}.

(** The state once a dictionary holding [d] is allocated. *)
Definition with_dict (d : dict) (st : state) : state :=
  {| store := store st ++ [ODict d]; calls := calls st |}.

(** The state once the calls [cs] are logged. *)
Definition with_calls (cs : list call) (st : state) : state :=
  {| store := store st; calls := calls st ++ cs |}.

Definition here_error : exn :=
  ValueError "_module cannot be {{here}} if not loaded from a file".

Definition file_error (tok : string) : exn :=
  ValueError ("Could not resolve _module " +:+ dquote +:+ tok +:+ dquote
              +:+ ", expected a module or a directory but got a file").

Definition unresolved_error (tok : string) : exn :=
  ValueError ("Could not resolve _module " +:+ dquote +:+ tok +:+ dquote
              +:+ ", it is not a valid module nor a directory").

(** Computations that only add to the call log. *)
Definition appends {A} (m : M A) : Prop :=
  forall st, exists rest, calls (snd (m st)) = calls st ++ rest.

(** [path_to_here is not None]. *)
Definition is_given (path_to_here : option string) : bool :=
  match path_to_here with Some _ => true | None => false end.

Section Outcomes.

Variable W : World.

(** The [KeyError] of [__getitem__], with the message it is given. *)
Definition no_key_error (st : state) (e : EnvDictObj) (key : string) : exn :=
  KeyError (("EnvDict(" +:+ repr_dict W (store st) (_data e) 2 +:+ ")")
            +:+ " object has no key '" +:+ key +:+ "'").

(** The built-in placeholders [_default_dict] makes. *)
Definition default_items (include_here : bool) : dict :=
  [("user", VStr "{{user}}"); ("cwd", VStr "{{cwd}}")]
  ++ match find_root_recursively W with
     | Some _ => [("root", VStr "{{root}}")]
     | None => []
     end
  ++ (if include_here then [("here", VStr "{{here}}")] else []).

(** The constructor from the validation on, with the merged raw mapping
    at [raw_data]. *)
Definition construct_from (raw_data : loc)
  (path_to_env path_to_here : option string) : M loc :=
  validate_raw_data_keys W raw_data ;;;
  let* preprocessed := raw_preprocess W raw_data path_to_env in
  let path_to_here :=
    match path_to_here with
    | None =>
        match path_to_env with
        | None => None
        | Some p => Some (path_parent W p)
        end
    | Some p => Some (path_resolve W p)
    end in
  let expander := {| exp_preprocessed := preprocessed;
                     exp_path_to_here := path_to_here |} in
  let* data := expand_dictionary W expander raw_data in
  alloc (OEnvDict {| _path_to_env := path_to_env;
                     _preprocessed := preprocessed;
                     _expander := expander;
                     _data := data;
                     _repr := tt |}).

(** The store and the log when validation starts. *)
Definition merged_state (d : dict) (path_to_here : option string)
  (st : state) : state :=
  {| store := store st
              ++ [ODict (default_items (is_given path_to_here));
                  ODict (dict_merge (default_items (is_given path_to_here))
                                    d)];
     calls := calls st ++ [CFindRoot] |}.

End Outcomes.

(** ** Outcomes of loading and preprocessing *)

Section LoadingOutcomes.

Variable W : World.

(** What [raw_preprocess] does once [_module] is known to be truthy and
    not [{{here}}]. *)
Definition resolve_outcome (m : value) (st : state) : result loc * state :=
  let n := List.length (store st) in
  match m with
  | VStr s | VPath s =>
      if path_exists W s
      then
        if path_is_file W s
        then (Err (file_error s),
              with_calls [CExists s; CIsFile s] (with_dict [] st))
        else (Ok n, with_calls [CExists s; CIsFile s]
                      (with_dict [("_module", VPath s)] st))
      else
        match m with
        | VStr _ =>
            match find_spec W s with
            | SpecRaises e =>
                (Err e, with_calls [CExists s; CFindSpec s] (with_dict [] st))
            | NoSpec =>
                (Err (unresolved_error s),
                 with_calls [CExists s; CFindSpec s] (with_dict [] st))
            | Spec (Some origin) =>
                (Ok n, with_calls [CExists s; CFindSpec s]
                         (with_dict [("_module", VPath (path_parent W origin))]
                                    st))
            | Spec None =>
                (Err TypeError,
                 with_calls [CExists s; CFindSpec s] (with_dict [] st))
            end
        | _ => (Err AttributeError, with_calls [CExists s] (with_dict [] st))
        end
  | _ => (Err TypeError, with_dict [] st)
  end.

Definition not_a_dict_error (src : string) (doc : tree) : exn :=
  ValueError ("Expected object loaded from '" +:+ src
              +:+ "' to be a dict but got '" +:+ type_name doc
              +:+ "' instead, verify the content").

(** The outcome of loading the file [q], with the path recorded. *)
Definition located (q : string) (r : result loc * state)
  : result (loc * option string) * state :=
  match r with
  | (Ok raw, s) => (Ok (raw, Some (path_resolve W q)), s)
  | (Err x, s) => (Err x, s)
  end.


End LoadingOutcomes.

(** * Properties *)

(** ** Lists, strings and dictionaries *)

Lemma split_go_nonempty sep s : forall skip cur, split_go sep skip cur s <> [].
Proof.
  induction s as [|c r IH]; intros skip cur; cbn [split_go];
    [discriminate|].
  destruct skip; [|apply IH].
  destruct (String.prefix sep (String c r)); [discriminate|apply IH].
Qed.

Lemma split_cons s sep : exists p0 keys, split s sep = p0 :: keys.
Proof.
  unfold split. destruct (split_go sep 0 "" s) eqn:E; [|eauto].
  exfalso. exact (split_go_nonempty _ _ _ _ E).
Qed.

Lemma dict_get_set_eq d k v : dict_get (dict_set d k v) k = Some v.
Proof.
  induction d as [|[k' v'] r IH]; simpl.
  - now rewrite String.eqb_refl.
  - destruct (String.eqb k' k) eqn:E; simpl; now rewrite E.
Qed.

Lemma dict_get_set_ne d k k' v :
  k <> k' -> dict_get (dict_set d k v) k' = dict_get d k'.
Proof.
  intros Hne. induction d as [|[k0 v0] r IH]; simpl.
  - destruct (String.eqb k k') eqn:E; [|reflexivity].
    apply String.eqb_eq in E. contradiction.
  - destruct (String.eqb k0 k) eqn:E; simpl.
    + apply String.eqb_eq in E. subst k0.
      destruct (String.eqb k k') eqn:E'; [|reflexivity].
      apply String.eqb_eq in E'. contradiction.
    + now rewrite IH.
Qed.

Lemma dict_get_set d k k' v :
  dict_get (dict_set d k v) k' =
  if String.eqb k k' then Some v else dict_get d k'.
Proof.
  destruct (String.eqb k k') eqn:E.
  - apply String.eqb_eq in E. subst. apply dict_get_set_eq.
  - apply dict_get_set_ne. intros Heq. subst k'.
    now rewrite String.eqb_refl in E.
Qed.

(** Assigning to a key that is there keeps the keys and their order. *)
Lemma dict_set_keys_present d k v old :
  dict_get d k = Some old -> dict_keys (dict_set d k v) = dict_keys d.
Proof.
  unfold dict_keys.
  induction d as [|[k' v'] r IH]; simpl; [discriminate|].
  destruct (String.eqb k' k); simpl; intros H; [reflexivity|].
  now rewrite IH.
Qed.

(** Assigning to a key that is not there adds it at the end. *)
Lemma dict_set_keys_absent d k v :
  dict_get d k = None -> dict_keys (dict_set d k v) = dict_keys d ++ [k].
Proof.
  unfold dict_keys.
  induction d as [|[k' v'] r IH]; simpl; [reflexivity|].
  destruct (String.eqb k' k); simpl; intros H; [discriminate|].
  now rewrite IH.
Qed.

Lemma dict_get_app (xs ys : dict) k :
  dict_get (xs ++ ys) k =
  match dict_get xs k with
  | Some v => Some v
  | None => dict_get ys k
  end.
Proof.
  induction xs as [|[k1 v1] xs IH]; simpl; [reflexivity|].
  destruct (String.eqb k1 k); [reflexivity|apply IH].
Qed.

Lemma dict_get_None d k : k ∉ dict_keys d -> dict_get d k = None.
Proof.
  induction d as [|[k' v'] r IH]; simpl; intros Hn; [reflexivity|].
  destruct (String.eqb k' k) eqn:E.
  - apply String.eqb_eq in E. subst. exfalso. apply Hn. left.
  - apply IH. intros Hin. apply Hn. now right.
Qed.

Lemma dict_get_Some_key d k v : dict_get d k = Some v -> k ∈ dict_keys d.
Proof.
  induction d as [|[k' v'] r IH]; simpl; [discriminate|].
  destruct (String.eqb k' k) eqn:E; intros H.
  - apply String.eqb_eq in E. subst. left.
  - right. now apply IH.
Qed.

Lemma dict_get_rev d k : wf_dict d -> dict_get (rev d) k = dict_get d k.
Proof.
  unfold wf_dict.
  induction d as [|[k' v'] r IH]; simpl; intros Hnd; [reflexivity|].
  apply NoDup_cons in Hnd as [Hnotin Hnd].
  rewrite dict_get_app, IH by assumption. simpl.
  destruct (String.eqb k' k) eqn:E.
  - apply String.eqb_eq in E. subst. now rewrite dict_get_None.
  - now destruct (dict_get r k).
Qed.

Lemma fold_dict_set_get (items acc : dict) k :
  dict_get
    (fold_left (fun a kv => dict_set a (fst kv) (snd kv)) items acc) k =
  match dict_get (rev items) k with
  | Some v => Some v
  | None => dict_get acc k
  end.
Proof.
  revert acc. induction items as [|[k0 v0] r IH]; intros acc; simpl.
  - reflexivity.
  - rewrite IH, dict_get_app. simpl.
    destruct (dict_get (rev r) k); [reflexivity|].
    rewrite dict_get_set. now destruct (String.eqb k0 k).
Qed.

(** In [{**a, **b}] a key of [b] has the value [b] gives it, any other
    key the value [a] gives it. *)
Lemma dict_merge_get a b k :
  wf_dict a -> wf_dict b ->
  dict_get (dict_merge a b) k =
  match dict_get b k with
  | Some v => Some v
  | None => dict_get a k
  end.
Proof.
  intros Ha Hb. unfold dict_merge.
  rewrite fold_dict_set_get, rev_app_distr, dict_get_app.
  rewrite !dict_get_rev by assumption. simpl.
  destruct (dict_get b k); [reflexivity|]. now destruct (dict_get a k).
Qed.

(** ** The store *)

Lemma lookup_alloc_new (h : heap) (o : obj) :
  (h ++ [o]) !! List.length h = Some o.
Proof. now apply list_lookup_middle. Qed.

Lemma lookup_alloc_old (h : heap) (o : obj) (l : loc) (x : obj) :
  h !! l = Some x -> (h ++ [o]) !! l = Some x.
Proof. intros H. now apply lookup_app_l_Some. Qed.

Lemma lookup_fresh (h : heap) (l : loc) (x : obj) :
  h !! l = Some x -> l <> List.length h.
Proof. intros H%lookup_lt_Some. lia. Qed.

(** ** Overrides through a flattened key *)

Section Overrides.

Variable W : World.

(** C10.  For the flattened key that is exactly ["env"], the split gives
    the single segment ["env"], the prefix check passes, the key path is
    empty, and taking its last element raises [IndexError]: neither the
    [ValueError] of the prefix check nor a [KeyError].  The store is as it
    was; the copying variant raises the same after making its copy. *)
Theorem flattened_env_alone_raises_IndexError (self : loc) (v : value)
  (st : state) :
  split "env" "__" = ["env"] /\
  _inplace_replace_flatten_key W self v "env" st = (Err IndexError, st) /\
  (forall e, store st !! self = Some (OEnvDict e) ->
     fst (_replace_flatten_key W self v "env" st) = Err IndexError).
Proof.
  split; [reflexivity|]. split; [reflexivity|].
  intros e He. unfold _replace_flatten_key, copy, bind, read_inst, alloc.
  rewrite He. reflexivity.
Qed.

(** C3.  The flattened key is split at every double underscore.  When the
    first segment is not ["env"] the in-place override raises the
    [ValueError] of the prefix check and leaves the store and the call log
    as they were; the copying override raises the same, and the store
    differs only by the copy it made of the instance, no dictionary is
    written.  When the first segment is ["env"], the remaining segments are
    the key path handed to [_replace_value]. *)
Theorem flattened_key_prefix_check (self : loc) (e : EnvDictObj)
  (v : value) (key : string) (st : state) :
  store st !! self = Some (OEnvDict e) ->
  exists p0 keys,
    split key "__" = p0 :: keys /\
    if String.eqb p0 "env"
    then
      _inplace_replace_flatten_key W self v key st
      = _replace_value W self v keys st /\
      _replace_flatten_key W self v key st
      = (let* o := copy self in _replace_value W o v keys ;;; ret o) st
    else
      _inplace_replace_flatten_key W self v key st
      = (Err prefix_error, st) /\
      _replace_flatten_key W self v key st
      = (Err prefix_error,
         {| store := store st ++ [OEnvDict e]; calls := calls st |}).
Proof.
  intros He. destruct (split_cons key "__") as (p0 & keys & Hs).
  exists p0, keys. split; [exact Hs|].
  unfold _replace_flatten_key, _inplace_replace_flatten_key.
  rewrite Hs. destruct (String.eqb p0 "env") eqn:E; cbn [negb].
  - split; reflexivity.
  - split; [reflexivity|].
    unfold copy, bind, read_inst, alloc. rewrite He. reflexivity.
Qed.


(** *** What [_replace_value] does *)

Lemma subscript_state d k st : snd (subscript d k st) = st.
Proof.
  destruct d; try reflexivity. simpl. unfold bind, read_dict.
  destruct (store st !! l) as [[dd|]|]; try reflexivity.
  now destruct (dict_get dd k).
Qed.

Lemma descend_state keys : forall d st, snd (descend d keys st) = st.
Proof.
  induction keys as [|k r IH]; intros d st; [reflexivity|].
  simpl. unfold bind.
  pose proof (subscript_state d k st) as Hs.
  destruct (subscript d k st) as [[x|x] st1]; simpl in Hs; subst st1.
  - apply IH.
  - reflexivity.
Qed.

(** Every way [_replace_value] can go, for a non-empty key path. *)
Lemma replace_value_cases (self : loc) (e : EnvDictObj) (v : value)
  (keys : list string) (k : string) (st : state) :
  store st !! self = Some (OEnvDict e) ->
  last keys = Some k ->
  _replace_value W self v keys st =
  match fst (descend (VDict (_data e)) (all_but_last keys) st) with
  | Err x => (Err x, st)
  | Ok (VDict l) =>
      match store st !! l with
      | Some (ODict d) =>
          match dict_get d k with
          | None | Some VNone => (Err (missing_key_error keys), st)
          | Some _ =>
              match expand_raw_value W (_expander e) (store st) v keys with
              | Ok x =>
                  (Ok tt,
                   {| store := <[l := ODict (dict_set d k x)]> (store st);
                      calls := calls (logged (_expander e) v keys st) |})
              | Err x => (Err x, logged (_expander e) v keys st)
              end
          end
      | _ => (Err TypeError, st)
      end
  | Ok _ => (Err AttributeError, st)
  end.
Proof.
  intros He Hk. unfold _replace_value, last_item, lift, bind at 1.
  rewrite Hk. unfold bind at 1, read_inst. rewrite He. unfold bind at 1.
  pose proof (descend_state (all_but_last keys) (VDict (_data e)) st) as Hs.
  destruct (descend (VDict (_data e)) (all_but_last keys) st)
    as [[x|x] st1]; simpl in Hs; subst st1; simpl; [|reflexivity].
  destruct x; try reflexivity.
  unfold bind, get_method, read_dict, bind.
  destruct (store st !! l) as [[d|]|] eqn:Hl; try reflexivity.
  unfold ret.
  destruct (dict_get d k) as [old|] eqn:Hd; [|reflexivity].
  destruct old; try reflexivity;
    unfold is_none, expand_value, bind, get_store, log, lift, logged,
      setitem, bind, read_dict, write_dict;
    cbn [store calls fst snd];
    (destruct (expand_raw_value W (_expander e) (store st) v keys);
     [cbn [store calls]; rewrite Hl; reflexivity | reflexivity]).
Qed.

(** A key path whose keys all exist, the last one bound to [None]: the
    [KeyError] of the check is raised all the same. *)
Lemma replace_value_rejects_key_bound_to_None (self : loc)
  (e : EnvDictObj) (v : value) (keys : list string) (k : string) (l : loc)
  (d : dict) (st : state) :
  store st !! self = Some (OEnvDict e) ->
  last keys = Some k ->
  fst (descend (VDict (_data e)) (all_but_last keys) st) = Ok (VDict l) ->
  store st !! l = Some (ODict d) ->
  dict_get d k = Some VNone ->
  _replace_value W self v keys st = (Err (missing_key_error keys), st).
Proof.
  intros He Hk Hd Hl Hget.
  rewrite (replace_value_cases self e v keys k st He Hk), Hd, Hl, Hget.
  reflexivity.
Qed.

(** A key path that runs through a value that is not a mapping does not
    raise [KeyError]: the last key is then looked up with a method the
    value does not have. *)
Lemma replace_value_through_scalar (self : loc) (e : EnvDictObj)
  (v x : value) (keys : list string) (k : string) (st : state) :
  store st !! self = Some (OEnvDict e) ->
  last keys = Some k ->
  fst (descend (VDict (_data e)) (all_but_last keys) st) = Ok x ->
  (forall l, x <> VDict l) ->
  _replace_value W self v keys st = (Err AttributeError, st).
Proof.
  intros He Hk Hd Hx.
  rewrite (replace_value_cases self e v keys k st He Hk), Hd.
  destruct x; try reflexivity. now destruct (Hx l).
Qed.

(** C2, the code where it departs from the claim.  Take a non-empty key
    path whose keys before the last lead, mapping by mapping, to a value
    [x].  When [x] is a mapping in which the last key is bound to [None],
    every key of the path exists and [_replace_value] still raises the
    [KeyError] that says the key does not exist.  When [x] is not a
    mapping, the last key does not exist and [_replace_value] raises
    [AttributeError], not [KeyError].  Nothing is written either way. *)
Theorem replace_value_key_error_mismatch (self : loc) (e : EnvDictObj)
  (v x : value) (keys : list string) (k : string) (st : state) :
  store st !! self = Some (OEnvDict e) ->
  last keys = Some k ->
  fst (descend (VDict (_data e)) (all_but_last keys) st) = Ok x ->
  (forall l d,
     x = VDict l ->
     store st !! l = Some (ODict d) ->
     dict_get d k = Some VNone ->
     _replace_value W self v keys st = (Err (missing_key_error keys), st)) /\
  ((forall l, x <> VDict l) ->
   _replace_value W self v keys st = (Err AttributeError, st)).
Proof.
  intros He Hk Hd. split.
  - intros l d -> Hl Hget.
    eapply replace_value_rejects_key_bound_to_None; eassumption.
  - intros Hx. eapply replace_value_through_scalar; eassumption.
Qed.

(** A final key that is not bound raises the [KeyError] of the check. *)
Lemma replace_value_missing_final_key (self : loc) (e : EnvDictObj)
  (v : value) (keys : list string) (k : string) (l : loc) (d : dict)
  (st : state) :
  store st !! self = Some (OEnvDict e) ->
  last keys = Some k ->
  fst (descend (VDict (_data e)) (all_but_last keys) st) = Ok (VDict l) ->
  store st !! l = Some (ODict d) ->
  dict_get d k = None ->
  _replace_value W self v keys st = (Err (missing_key_error keys), st).
Proof.
  intros He Hk Hd Hl Hget.
  rewrite (replace_value_cases self e v keys k st He Hk), Hd, Hl, Hget.
  reflexivity.
Qed.

(** When [_replace_value] succeeds it has written one mapping, under a key
    that was already bound there: the keys of the mapping are the same. *)
Lemma replace_value_success (self : loc) (e : EnvDictObj) (v : value)
  (keys : list string) (k : string) (st st' : state) :
  store st !! self = Some (OEnvDict e) ->
  last keys = Some k ->
  _replace_value W self v keys st = (Ok tt, st') ->
  exists l d old x,
    fst (descend (VDict (_data e)) (all_but_last keys) st) = Ok (VDict l) /\
    store st !! l = Some (ODict d) /\
    dict_get d k = Some old /\ old <> VNone /\
    expand_raw_value W (_expander e) (store st) v keys = Ok x /\
    store st' = <[l := ODict (dict_set d k x)]> (store st) /\
    dict_keys (dict_set d k x) = dict_keys d.
Proof.
  intros He Hk. rewrite (replace_value_cases self e v keys k st He Hk).
  destruct (fst (descend (VDict (_data e)) (all_but_last keys) st))
    as [x|x]; [|discriminate].
  destruct x; try discriminate.
  destruct (store st !! l) as [[d|]|] eqn:Hl; try discriminate.
  destruct (dict_get d k) as [old|] eqn:Hget; [|discriminate].
  destruct (expand_raw_value W (_expander e) (store st) v keys) as [x|x]
    eqn:Hx; [|destruct old; discriminate].
  intros H. exists l, d, old, x.
  assert (Hold : old <> VNone) by (intros ->; discriminate).
  assert (Hst : store st' = <[l := ODict (dict_set d k x)]> (store st))
    by (destruct old; try contradiction; now inversion H).
  repeat split; try assumption; try reflexivity.
  eapply dict_set_keys_present; eassumption.
Qed.

(** *** The copy an override works on *)

Lemma copy_spec (self : loc) (e : EnvDictObj) (st : state) :
  store st !! self = Some (OEnvDict e) ->
  copy self st = (Ok (List.length (store st)), with_copy e st).
Proof.
  intros He. unfold copy, bind, read_inst, alloc. now rewrite He.
Qed.

(** A new instance in the store changes no lookup in a mapping. *)
Lemma read_dict_with_copy (l : loc) (e : EnvDictObj) (st : state) :
  fst (read_dict l (with_copy e st)) = fst (read_dict l st).
Proof.
  unfold read_dict, with_copy. cbn [store].
  destruct (store st !! l) as [x|] eqn:Hl.
  - rewrite (lookup_alloc_old _ _ _ _ Hl). now destruct x.
  - apply lookup_ge_None in Hl.
    destruct (decide (l = List.length (store st))) as [->|Hne].
    + now rewrite lookup_alloc_new.
    + assert (Hnone : (store st ++ [OEnvDict e]) !! l = None)
        by (apply lookup_ge_None; rewrite length_app; simpl; lia).
      now rewrite Hnone.
Qed.

Lemma subscript_with_copy (d : value) (k : string) (e : EnvDictObj)
  (st : state) :
  fst (subscript d k (with_copy e st)) = fst (subscript d k st).
Proof.
  destruct d; try reflexivity. simpl. unfold bind.
  pose proof (read_dict_with_copy l e st) as H.
  destruct (read_dict l (with_copy e st)) as [[a|a] s1] eqn:E1;
    destruct (read_dict l st) as [[b|b] s2] eqn:E2;
    simpl in H; try discriminate; inversion H; subst;
    [now destruct (dict_get b k) | reflexivity].
Qed.

Lemma descend_with_copy (keys : list string) (e : EnvDictObj) :
  forall d st,
    fst (descend d keys (with_copy e st)) = fst (descend d keys st).
Proof.
  induction keys as [|k r IH]; intros d st; [reflexivity|].
  simpl. unfold bind.
  pose proof (subscript_with_copy d k e st) as H.
  pose proof (subscript_state d k (with_copy e st)) as H1.
  pose proof (subscript_state d k st) as H2.
  destruct (subscript d k (with_copy e st)) as [[a|a] s1];
    destruct (subscript d k st) as [[b|b] s2];
    simpl in *; subst; try discriminate; inversion H; subst;
    [apply IH | reflexivity].
Qed.

(** What the copying override returns when it succeeds: a new instance
    with the attributes of the receiver, bound to the same mappings, and
    one of those mappings, reached from the receiver's [_data], has been
    written. *)
Lemma replace_flatten_key_shares (self : loc) (e : EnvDictObj) (v : value)
  (key : string) (o : loc) (st st' : state) :
  store st !! self = Some (OEnvDict e) ->
  _replace_flatten_key W self v key st = (Ok o, st') ->
  o <> self /\
  store st' !! o = Some (OEnvDict e) /\
  store st' !! self = Some (OEnvDict e) /\
  exists keys k l d x,
    split key "__" = "env" :: keys /\
    last keys = Some k /\
    fst (descend (VDict (_data e)) (all_but_last keys) st) = Ok (VDict l) /\
    store st !! l = Some (ODict d) /\
    expand_raw_value W (_expander e) (store (with_copy e st)) v keys
    = Ok x /\
    store st' !! l = Some (ODict (dict_set d k x)).
Proof.
  intros He H. unfold _replace_flatten_key, bind at 1 in H.
  rewrite (copy_spec self e st He) in H.
  set (n := List.length (store st)) in *.
  assert (Hn : store (with_copy e st) !! n = Some (OEnvDict e))
    by apply lookup_alloc_new.
  unfold bind, _inplace_replace_flatten_key in H.
  destruct (split_cons key "__") as (p0 & keys & Hs). rewrite Hs in H.
  destruct (String.eqb p0 "env") eqn:Ep; cbn [negb] in H;
    [|discriminate].
  apply String.eqb_eq in Ep. subst p0.
  destruct (last keys) as [k|] eqn:Hk.
  2:{ unfold _replace_value, last_item, lift, bind in H.
      rewrite Hk in H. discriminate. }
  destruct (_replace_value W n v keys (with_copy e st)) as [[[]|x] s1]
    eqn:Hr; [|discriminate].
  unfold ret in H. inversion H. subst o s1. clear H.
  destruct (replace_value_success n e v keys k _ _ Hn Hk Hr)
    as (l & d & old & x & Hd & Hl & Hget & Hold & Hx & Hst & _).
  rewrite descend_with_copy in Hd.
  assert (Hl' : store st !! l = Some (ODict d)).
  { unfold with_copy in Hl. cbn [store] in Hl.
    destruct (store st !! l) as [y|] eqn:Hy.
    - now rewrite (lookup_alloc_old _ _ _ _ Hy) in Hl.
    - apply lookup_ge_None in Hy.
      destruct (decide (l = n)) as [->|Hne].
      + fold n in Hl. unfold n in Hl. rewrite lookup_alloc_new in Hl.
        discriminate.
      + assert (Hnone : (store st ++ [OEnvDict e]) !! l = None)
          by (apply lookup_ge_None; rewrite length_app; simpl; lia).
        congruence. }
  assert (Hls : l <> self) by (intros ->; congruence).
  assert (Hln : l <> n) by (apply (lookup_fresh _ _ _ Hl')).
  split; [apply not_eq_sym, (lookup_fresh _ _ _ He)|].
  rewrite Hst. unfold with_copy. cbn [store].
  split; [rewrite list_lookup_insert_ne by assumption;
          apply lookup_alloc_new|].
  split; [rewrite list_lookup_insert_ne by assumption;
          now apply lookup_alloc_old|].
  exists keys, k, l, d, x. repeat split; try assumption.
  apply list_lookup_insert_eq. rewrite length_app. simpl.
  apply lookup_lt_Some in Hl'. lia.
Qed.

End Overrides.

(** ** Lookup and item assignment *)

Section Lookup.

Variable W : World.

(** C7.  A lookup answers from the preprocessed mapping when the key is
    bound there, otherwise from the expanded mapping, the value wrapped by
    [FrozenJSON]; when the key is bound in neither it raises a [KeyError]
    whose message carries [repr_dict] of the expanded mapping at level 2,
    the truncated rendering of [reprlib].  So a [KeyError] is raised
    exactly when the key is absent from both mappings.  The store is not
    written. *)
Theorem getitem_layers (self : loc) (e : EnvDictObj) (pre data : dict)
  (key : string) (st : state) :
  store st !! self = Some (OEnvDict e) ->
  store st !! _preprocessed e = Some (ODict pre) ->
  store st !! _data e = Some (ODict data) ->
  __getitem__ W self key st =
    match dict_get pre key with
    | Some v => (Ok (FrozenJSON v), st)
    | None =>
        match dict_get data key with
        | Some v => (Ok (FrozenJSON v), st)
        | None => (Err (no_key_error W st e key), st)
        end
    end /\
  ((exists msg, fst (__getitem__ W self key st) = Err (KeyError msg)) <->
   dict_get pre key = None /\ dict_get data key = None).
Proof.
  intros He Hp Hd.
  assert (Heq : __getitem__ W self key st =
    match dict_get pre key with
    | Some v => (Ok (FrozenJSON v), st)
    | None =>
        match dict_get data key with
        | Some v => (Ok (FrozenJSON v), st)
        | None => (Err (no_key_error W st e key), st)
        end
    end).
  { unfold __getitem__, _getitem, bind, read_inst, contains, subscript,
      bind, read_dict, ret.
    rewrite He. cbv beta iota. rewrite Hp. cbv beta iota.
    destruct (dict_get pre key) as [v|] eqn:Hv; cbv beta iota.
    - rewrite Hp. cbv beta iota. rewrite Hv. reflexivity.
    - rewrite Hd. cbv beta iota.
      destruct (dict_get data key) as [v|]; [reflexivity|].
      unfold raise, __repr__, bind, read_inst, get_store, ret.
      rewrite He. reflexivity. }
  split; [exact Heq|]. rewrite Heq.
  destruct (dict_get pre key) as [v|]; simpl.
  - split; [intros [msg H]; discriminate | intros [H _]; discriminate].
  - destruct (dict_get data key) as [v|]; simpl.
    + split; [intros [msg H]; discriminate | intros [_ H]; discriminate].
    + split; [auto | intros _; eexists; reflexivity].
Qed.




End Lookup.

(** ** Preprocessing *)

Lemma insert_alloc_new (h : heap) (o x : obj) :
  <[List.length h := x]> (h ++ [o]) = h ++ [x].
Proof.
  rewrite insert_app_r_alt by lia. now rewrite Nat.sub_diag.
Qed.

Section Preprocessing.

Variable W : World.

Lemma truthy_false_with_dict (v : value) (d : dict) (st : state) :
  fst (truthy v st) = Ok false ->
  truthy v (with_dict d st) = (Ok false, with_dict d st).
Proof.
  destruct v; simpl; unfold ret; simpl; intros H;
    try (inversion H as [Hb]; rewrite ?Hb; reflexivity); try discriminate.
  unfold bind, read_dict in *.
  destruct (store st !! l) as [[dd|]|] eqn:Hl; try discriminate.
  unfold with_dict at 1. cbn [store].
  rewrite (lookup_alloc_old _ _ _ _ Hl). simpl in H.
  destruct dd; [reflexivity|discriminate].
Qed.

(** C5.  When the raw mapping has no [_module] key, or has one whose value
    is falsy, [raw_preprocess] returns a new empty mapping; the call log
    is as it was: no existence check, no file check, no module lookup. *)
Theorem preprocess_without_module (raw : loc) (d : dict)
  (p : option string) (st : state) :
  store st !! raw = Some (ODict d) ->
  (dict_get d "_module" = None \/
   exists v, dict_get d "_module" = Some v /\ fst (truthy v st) = Ok false) ->
  raw_preprocess W raw p st =
    (Ok (List.length (store st)), with_dict [] st) /\
  store (with_dict [] st) !! List.length (store st) = Some (ODict []) /\
  calls (with_dict [] st) = calls st.
Proof.
  intros Hraw Hm. split; [|split; [apply lookup_alloc_new|reflexivity]].
  unfold raw_preprocess, bind at 1, get_method, bind at 1, read_dict.
  rewrite Hraw. cbv beta iota. unfold ret at 1. unfold bind at 1, alloc.
  fold (with_dict [] st). unfold bind at 1.
  assert (Hf : truthy (match dict_get d "_module" with
                       | Some x => x | None => VNone end) (with_dict [] st)
               = (Ok false, with_dict [] st)).
  { destruct Hm as [Hn|(v & Hv & Hf)].
    - rewrite Hn. reflexivity.
    - rewrite Hv. now apply truthy_false_with_dict. }
  rewrite Hf. reflexivity.
Qed.

(** C6, the code and where it departs from the claim.  For a [_module]
    token that is a non-empty string other than [{{here}}]: when the token
    names an existing filesystem entry that is a file, [raw_preprocess]
    raises the [ValueError] "expected a module or a directory but got a
    file"; when it names an existing entry that is not a file, that path
    is stored under [_module]; otherwise the token is looked up as a
    module.  When the lookup returns no spec, the [ValueError] "not a
    valid module nor a directory" is raised, and when it returns a spec
    with an origin, the parent of the origin is stored.  But when the
    lookup itself raises, as it does for a dotted name whose parent
    cannot be imported, that error goes to the caller in place of the
    [ValueError]; and when the spec found has no origin, building the
    path raises [TypeError]. *)
Theorem preprocess_module_token (raw : loc) (d : dict) (tok : string)
  (p : option string) (st : state) :
  store st !! raw = Some (ODict d) ->
  dict_get d "_module" = Some (VStr tok) ->
  tok <> "" ->
  tok <> "{{here}}" ->
  raw_preprocess W raw p st =
    if path_exists W tok
    then
      if path_is_file W tok
      then (Err (file_error tok),
            with_calls [CExists tok; CIsFile tok] (with_dict [] st))
      else (Ok (List.length (store st)),
            with_calls [CExists tok; CIsFile tok]
              (with_dict [("_module", VPath tok)] st))
    else
      match find_spec W tok with
      | SpecRaises e =>
          (Err e, with_calls [CExists tok; CFindSpec tok] (with_dict [] st))
      | NoSpec =>
          (Err (unresolved_error tok),
           with_calls [CExists tok; CFindSpec tok] (with_dict [] st))
      | Spec (Some origin) =>
          (Ok (List.length (store st)),
           with_calls [CExists tok; CFindSpec tok]
             (with_dict [("_module", VPath (path_parent W origin))] st))
      | Spec None =>
          (Err TypeError,
           with_calls [CExists tok; CFindSpec tok] (with_dict [] st))
      end.
Proof.
  intros Hraw Hm Hne Hhere.
  assert (Hraw' : (store st ++ [ODict []]) !! raw = Some (ODict d))
    by now apply lookup_alloc_old.
  assert (Et : String.eqb tok "" = false)
    by (apply String.eqb_neq; exact Hne).
  assert (Eh : String.eqb tok "{{here}}" = false)
    by (apply String.eqb_neq; exact Hhere).
  unfold raw_preprocess, bind at 1, get_method, bind at 1, read_dict.
  rewrite Hraw. cbv beta iota. rewrite Hm. unfold ret at 1.
  unfold bind at 1, alloc. unfold bind at 1, truthy, ret at 1.
  rewrite Et. cbn [negb]. cbv beta iota.
  unfold bind at 1. unfold bind at 1, subscript, bind at 1, read_dict.
  cbn [store]. rewrite Hraw'. cbv beta iota. rewrite Hm.
  unfold ret at 1. cbv beta iota. unfold is_here. rewrite Eh.
  unfold bind at 1, Path, ret at 1. cbv beta iota.
  unfold bind at 1, call_exists, bind at 1, log, ret at 1. cbv beta iota.
  cbn [store calls].
  unfold with_calls, with_dict, file_error, unresolved_error. cbn [store calls].
  destruct (path_exists W tok).
  - unfold bind at 1, bind at 1, call_is_file, bind at 1, log, ret at 1.
    cbv beta iota. cbn [store calls].
    destruct (path_is_file W tok).
    + unfold raise, format. rewrite <- app_assoc. reflexivity.
    + unfold ret at 1. unfold setitem, bind at 1, read_dict. cbn [store].
      rewrite lookup_alloc_new. cbv beta iota. unfold write_dict.
      cbn [store calls]. rewrite insert_alloc_new, <- app_assoc.
      reflexivity.
  - unfold bind at 1, bind at 1, call_find_spec, bind at 1, log, ret at 1.
    cbv beta iota. cbn [store calls].
    destruct (find_spec W tok) as [e| |[origin|]].
    + unfold raise, format. rewrite <- app_assoc. reflexivity.
    + unfold ret at 1, raise, format. rewrite <- app_assoc. reflexivity.
    + unfold ret at 1. cbv beta iota. unfold ret at 1.
      unfold setitem, bind at 1, read_dict. cbn [store].
      rewrite lookup_alloc_new. cbv beta iota. unfold write_dict.
      cbn [store calls]. rewrite insert_alloc_new, <- app_assoc.
      reflexivity.
    + unfold ret at 1, raise, format. rewrite <- app_assoc. reflexivity.
Qed.

End Preprocessing.

(** ** Construction *)

Lemma appends_ret {A} (a : A) : appends (ret a).
Proof. intros st. exists []. simpl. now rewrite app_nil_r. Qed.

Lemma appends_raise {A} (e : exn) : appends (@raise A e).
Proof. intros st. exists []. simpl. now rewrite app_nil_r. Qed.

Lemma appends_lift {A} (r : result A) : appends (lift r).
Proof. intros st. exists []. simpl. now rewrite app_nil_r. Qed.

Lemma appends_log (c : call) : appends (log c).
Proof. intros st. exists [c]. reflexivity. Qed.

Lemma appends_get_store : appends get_store.
Proof. intros st. exists []. simpl. now rewrite app_nil_r. Qed.

Lemma appends_alloc (o : obj) : appends (alloc o).
Proof. intros st. exists []. simpl. now rewrite app_nil_r. Qed.

Lemma appends_read_dict (l : loc) : appends (read_dict l).
Proof.
  intros st. exists []. unfold read_dict. rewrite app_nil_r.
  now destruct (store st !! l) as [[d|]|].
Qed.

Lemma appends_write_dict (l : loc) (d : dict) : appends (write_dict l d).
Proof. intros st. exists []. simpl. now rewrite app_nil_r. Qed.

Lemma appends_bind {A B} (m : M A) (f : A -> M B) :
  appends m -> (forall a, appends (f a)) -> appends (bind m f).
Proof.
  intros Hm Hf st. unfold bind. destruct (Hm st) as [r1 H1].
  destruct (m st) as [[a|e] st1]; simpl in H1.
  - destruct (Hf a st1) as [r2 H2]. exists (r1 ++ r2).
    now rewrite H2, H1, app_assoc.
  - exists r1. exact H1.
Qed.

Create HintDb appends_db.
#[local] Hint Resolve appends_ret appends_raise appends_lift appends_log
  appends_get_store appends_alloc appends_read_dict appends_write_dict
  : appends_db.

Ltac appends_step :=
  match goal with
  | |- appends (bind _ _) => apply appends_bind; [|intros ?]
  | |- appends (match ?x with _ => _ end) => destruct x
  | |- forall _, _ => intros ?
  | |- _ => solve [auto with appends_db]
  end.

Ltac appends_auto := repeat appends_step.

Lemma appends_subscript (v : value) (k : string) : appends (subscript v k).
Proof. unfold subscript. appends_auto. Qed.

Lemma appends_get_method (v : value) (k : string) :
  appends (get_method v k).
Proof. unfold get_method. appends_auto. Qed.

Lemma appends_setitem (v : value) (k : string) (x : value) :
  appends (setitem v k x).
Proof. unfold setitem. appends_auto. Qed.

Lemma appends_truthy (v : value) : appends (truthy v).
Proof. unfold truthy. appends_auto. Qed.

#[local] Hint Resolve appends_subscript appends_get_method appends_setitem
  appends_truthy : appends_db.

Section Construction.

Variable W : World.

Lemma appends_raw_preprocess (raw : loc) (p : option string) :
  appends (raw_preprocess W raw p).
Proof.
  unfold raw_preprocess, call_exists, call_is_file, call_find_spec, Path.
  appends_auto.
Qed.

Lemma appends_expand_dictionary (e : Expander) (raw : loc) :
  appends (expand_dictionary W e raw).
Proof.
  unfold expand_dictionary. appends_auto.
  intros st. exists [].
  destruct (expand_raw_dictionary W e (store st) raw). simpl.
  now rewrite app_nil_r.
Qed.

Lemma default_items_wf (include_here : bool) :
  wf_dict (default_items W include_here).
Proof.
  unfold wf_dict, default_items.
  destruct (find_root_recursively W), include_here; simpl;
    repeat (apply NoDup_cons; split;
            [rewrite ?elem_of_cons, elem_of_nil; intuition discriminate|]);
    apply NoDup_nil; exact I.
Qed.

Lemma default_dict_spec (include_here : bool) (st : state) :
  _default_dict W include_here st =
  (Ok (List.length (store st)),
   {| store := store st ++ [ODict (default_items W include_here)];
      calls := calls st ++ [CFindRoot] |}).
Proof.
  unfold _default_dict, default_items, bind at 1, alloc.
  unfold bind at 1, log. cbn [store calls].
  destruct (find_root_recursively W) as [root|];
    destruct include_here;
    unfold bind, setitem, bind, read_dict, write_dict, ret;
    cbn [store calls];
    rewrite ?lookup_alloc_new; cbv beta iota; cbn [store calls];
    rewrite ?insert_alloc_new; cbv beta iota; cbn [store calls];
    rewrite ?lookup_alloc_new; cbv beta iota; cbn [store calls];
    rewrite ?insert_alloc_new; reflexivity.
Qed.

Lemma init_after_load (src : source) (path_to_here : option string)
  (l : loc) (p : option string) (d : dict) (st st1 : state) :
  load_from_source W src st = (Ok (l, p), st1) ->
  store st1 !! l = Some (ODict d) ->
  __init__ W src path_to_here st =
  construct_from W (S (List.length (store st1))) p path_to_here
                 (merged_state W d path_to_here st1).
Proof.
  intros Hload Hl. unfold __init__, bind at 1. rewrite Hload.
  cbn [fst snd]. unfold bind at 1.
  fold (is_given path_to_here). rewrite default_dict_spec.
  unfold bind at 1, read_dict at 1. cbn [store].
  rewrite lookup_alloc_new. cbv beta iota.
  unfold bind at 1, read_dict at 1. cbn [store].
  rewrite (lookup_alloc_old _ _ _ _ Hl). cbv beta iota.
  unfold bind at 1, alloc at 1. cbn [store calls].
  unfold construct_from, merged_state.
  rewrite length_app, <- app_assoc. simpl List.length.
  replace (List.length (store st1) + 1) with (S (List.length (store st1)))
    by lia.
  reflexivity.
Qed.

Lemma merged_state_lookup (d : dict) (path_to_here : option string)
  (st : state) :
  store (merged_state W d path_to_here st) !! S (List.length (store st))
  = Some (ODict (dict_merge (default_items W (is_given path_to_here)) d)).
Proof.
  unfold merged_state. cbn [store].
  change (store st ++ [?a; ?b]) with (store st ++ [a] ++ [b]).
  rewrite app_assoc.
  replace (S (List.length (store st)))
    with (List.length
            (store st ++ [ODict (default_items W (is_given path_to_here))]))
    by (rewrite length_app; simpl; lia).
  apply lookup_alloc_new.
Qed.

Lemma validate_spec (raw_data : loc) (d : dict) (st : state) :
  store st !! raw_data = Some (ODict d) ->
  validate_raw_data_keys W raw_data st =
  (match raw_data_keys W (store st) d with
   | Some e => Err e
   | None => Ok tt
   end, with_calls [CValidate d] st).
Proof.
  intros Hl. unfold validate_raw_data_keys, bind, read_dict, get_store, log.
  rewrite Hl. cbn [store calls].
  now destruct (raw_data_keys W (store st) d).
Qed.

Lemma appends_after_validation (raw_data : loc)
  (path_to_env path_to_here : option string) :
  appends
    (let* preprocessed := raw_preprocess W raw_data path_to_env in
     let path_to_here :=
       match path_to_here with
       | None =>
           match path_to_env with
           | None => None
           | Some p => Some (path_parent W p)
           end
       | Some p => Some (path_resolve W p)
       end in
     let expander := {| exp_preprocessed := preprocessed;
                        exp_path_to_here := path_to_here |} in
     let* data := expand_dictionary W expander raw_data in
     alloc (OEnvDict {| _path_to_env := path_to_env;
                        _preprocessed := preprocessed;
                        _expander := expander;
                        _data := data;
                        _repr := tt |})).
Proof.
  apply appends_bind; [apply appends_raw_preprocess|]. intros pre.
  apply appends_bind; [apply appends_expand_dictionary|]. intros data.
  apply appends_alloc.
Qed.

(** C8.  The built-in placeholders are [user] and [cwd] always, [root]
    when a project root is found and [here] when the caller gave a base
    directory.  The constructor merges them with the raw mapping it
    loaded, a key of the raw mapping keeping the raw value, and hands the
    merged mapping to the validator: after loading, the calls it makes are
    the root discovery, then the validation of the merged mapping, then
    the rest. *)
Theorem init_merges_builtins_before_validation (src : source)
  (path_to_here : option string) (l : loc) (p : option string) (d : dict)
  (st st1 : state) :
  load_from_source W src st = (Ok (l, p), st1) ->
  store st1 !! l = Some (ODict d) ->
  wf_dict d ->
  let builtins := default_items W (is_given path_to_here) in
  let merged := dict_merge builtins d in
  (forall k, k ∈ dict_keys builtins <->
     k = "user" \/ k = "cwd" \/
     (k = "root" /\ find_root_recursively W <> None) \/
     (k = "here" /\ path_to_here <> None)) /\
  (forall k, dict_get merged k =
     match dict_get d k with
     | Some v => Some v
     | None => dict_get builtins k
     end) /\
  exists rest,
    calls (snd (__init__ W src path_to_here st))
    = calls st1 ++ CFindRoot :: CValidate merged :: rest.
Proof.
  intros Hload Hl Hwf builtins merged. split; [|split].
  - intros k. subst builtins. unfold default_items, dict_keys.
    destruct (find_root_recursively W) as [r|], path_to_here as [h|];
      simpl; rewrite ?elem_of_cons, elem_of_nil;
      intuition (try discriminate; try congruence).
  - intros k. apply dict_merge_get; [apply default_items_wf|exact Hwf].
  - rewrite (init_after_load _ _ _ _ _ _ _ Hload Hl).
    unfold construct_from, bind at 1.
    rewrite (validate_spec _ _ _ (merged_state_lookup d path_to_here st1)).
    fold builtins. fold merged.
    destruct (raw_data_keys W (store (merged_state W d path_to_here st1))
                merged) as [e|].
    + exists []. unfold with_calls, merged_state. cbn [snd calls].
      now rewrite <- app_assoc.
    + destruct (appends_after_validation (S (List.length (store st1))) p
                  path_to_here
                  (with_calls [CValidate merged]
                     (merged_state W d path_to_here st1))) as [rest Hrest].
      exists rest. cbv beta iota. etransitivity; [exact Hrest|].
      unfold with_calls, merged_state. cbn [calls].
      now rewrite <- !app_assoc.
Qed.


End Construction.

(** ** The definitions at work in the sample world *)

(** C1, the code at the failing input.  [obj1 = EnvDict({'a': {'b': 1}})]
    and [obj2 = obj1._replace_flatten_key(2, 'env__a__b')]: [obj2] is a
    new instance, and [obj1['a']['b']], which was 1 before the override,
    is 2 after it, as [obj2['a']['b']] is. *)
Theorem replace_flatten_key_writes_receiver :
  exists obj1 st1 obj2 st2,
    Sample.construct Sample.doc_ab None Sample.empty = (Ok obj1, st1) /\
    fst (Sample.get2 obj1 "a" "b" st1) = Ok (Plain (VInt 1)) /\
    _replace_flatten_key Sample.world obj1 (VInt 2) "env__a__b" st1
    = (Ok obj2, st2) /\
    obj2 <> obj1 /\
    fst (Sample.get2 obj2 "a" "b" st2) = Ok (Plain (VInt 2)) /\
    fst (Sample.get2 obj1 "a" "b" st2) = Ok (Plain (VInt 2)).
Proof.
  do 4 eexists.
  split; [vm_compute; reflexivity|].
  split; [vm_compute; reflexivity|].
  split; [vm_compute; reflexivity|].
  split; [discriminate|].
  split; vm_compute; reflexivity.
Qed.

(** The same through [_replace_flatten_keys]; and when a later entry
    fails, the earlier ones stay written in the receiver. *)
Example replace_flatten_keys_writes_receiver :
  let st1 := Sample.built Sample.doc_ab in
  fst (Sample.get2 7 "a" "b"
         (snd (_replace_flatten_keys Sample.world 7
                 [("env__a__b", VInt 2)] st1)))
  = Ok (Plain (VInt 2)) /\
  fst (_replace_flatten_keys Sample.world 7
         [("env__a__b", VInt 2); ("a__b", VInt 3)] st1)
  = Err prefix_error /\
  fst (Sample.get2 7 "a" "b"
         (snd (_replace_flatten_keys Sample.world 7
                 [("env__a__b", VInt 2); ("a__b", VInt 3)] st1)))
  = Ok (Plain (VInt 2)).
Proof. repeat split; vm_compute; reflexivity. Qed.

Lemma replace_value_key_error_mismatch_witness :
  fst (__getitem__ Sample.world 5 "a" (Sample.built Sample.doc_null))
  = Ok (Plain VNone) /\
  _replace_value Sample.world 5 (VInt 2) ["a"]
    (Sample.built Sample.doc_null)
  = (Err (missing_key_error ["a"]), Sample.built Sample.doc_null) /\
  fst (Sample.get2 7 "a" "b" (Sample.built Sample.doc_ab))
  = Ok (Plain (VInt 1)) /\
  _replace_value Sample.world 7 (VInt 2) ["a"; "b"; "c"]
    (Sample.built Sample.doc_ab)
  = (Err AttributeError, Sample.built Sample.doc_ab).
Proof.
  split; [vm_compute; reflexivity|].
  split.
  - apply (proj1 (replace_value_key_error_mismatch Sample.world 5
                    Sample.inst_null (VInt 2) (VDict 4) ["a"] "a"
                    (Sample.built Sample.doc_null)
                    eq_refl eq_refl eq_refl)
             4 [("user", VStr "alice"); ("cwd", VStr "/work");
                ("root", VStr "/proj"); ("a", VNone)]);
      reflexivity.
  - split; [vm_compute; reflexivity|].
    apply (proj2 (replace_value_key_error_mismatch Sample.world 7
                    Sample.inst_ab (VInt 2) (VInt 1) ["a"; "b"; "c"] "c"
                    (Sample.built Sample.doc_ab)
                    eq_refl eq_refl eq_refl)).
    discriminate.
Defined.

Lemma flattened_env_alone_raises_IndexError_witness :
  store (Sample.built Sample.doc_ab) !! 7 = Some (OEnvDict Sample.inst_ab) /\
  fst (_replace_flatten_key Sample.world 7 (VInt 2) "env"
         (Sample.built Sample.doc_ab))
  = Err IndexError.
Proof.
  split; [vm_compute; reflexivity|].
  apply (proj2 (proj2 (flattened_env_alone_raises_IndexError Sample.world 7
                         (VInt 2) (Sample.built Sample.doc_ab)))
           Sample.inst_ab).
  vm_compute; reflexivity.
Defined.

Lemma flattened_key_prefix_check_witness :
  split "a__b" "__" = ["a"; "b"] /\
  exists p0 keys,
    split "a__b" "__" = p0 :: keys /\
    if String.eqb p0 "env"
    then
      _inplace_replace_flatten_key Sample.world 7 (VInt 2) "a__b"
        (Sample.built Sample.doc_ab)
      = _replace_value Sample.world 7 (VInt 2) keys
          (Sample.built Sample.doc_ab) /\
      _replace_flatten_key Sample.world 7 (VInt 2) "a__b"
        (Sample.built Sample.doc_ab)
      = (let* o := copy 7 in
         _replace_value Sample.world o (VInt 2) keys ;;; ret o)
          (Sample.built Sample.doc_ab)
    else
      _inplace_replace_flatten_key Sample.world 7 (VInt 2) "a__b"
        (Sample.built Sample.doc_ab)
      = (Err prefix_error, Sample.built Sample.doc_ab) /\
      _replace_flatten_key Sample.world 7 (VInt 2) "a__b"
        (Sample.built Sample.doc_ab)
      = (Err prefix_error,
         {| store := store (Sample.built Sample.doc_ab)
                     ++ [OEnvDict Sample.inst_ab];
            calls := calls (Sample.built Sample.doc_ab) |}).
Proof.
  split; [reflexivity|].
  apply (flattened_key_prefix_check Sample.world 7 Sample.inst_ab (VInt 2)
           "a__b" (Sample.built Sample.doc_ab)).
  vm_compute; reflexivity.
Defined.

Lemma getitem_layers_witness :
  fst (__getitem__ Sample.world 5 "_module" (Sample.built Sample.doc_pkg))
  = Ok (Plain (VPath "/proj/pkg")) /\
  fst (__getitem__ Sample.world 5 "user" (Sample.built Sample.doc_pkg))
  = Ok (Plain (VStr "alice")) /\
  fst (__getitem__ Sample.world 5 "zz" (Sample.built Sample.doc_pkg))
  = Err (KeyError "EnvDict({...}) object has no key 'zz'").
Proof.
  pose proof (fun key =>
    proj1 (getitem_layers Sample.world 5
      {| _path_to_env := None;
         _preprocessed := 3;
         _expander := {| exp_preprocessed := 3; exp_path_to_here := None |};
         _data := 4;
         _repr := tt |}
      [("_module", VPath "/proj/pkg")]
      [("user", VStr "alice"); ("cwd", VStr "/work");
       ("root", VStr "/proj"); ("_module", VStr "pkg")]
      key (Sample.built Sample.doc_pkg) eq_refl eq_refl eq_refl)) as H.
  split; [|split].
  - rewrite (H "_module"). reflexivity.
  - rewrite (H "user"). reflexivity.
  - rewrite (H "zz"). reflexivity.
Defined.



Lemma preprocess_without_module_witness :
  dict_get [("a", VDict 0)] "_module" = None /\
  raw_preprocess Sample.world 1 None (Sample.literal Sample.doc_ab)
  = (Ok 2, with_dict [] (Sample.literal Sample.doc_ab)).
Proof.
  split; [reflexivity|].
  apply (preprocess_without_module Sample.world 1 [("a", VDict 0)] None
           (Sample.literal Sample.doc_ab));
    [reflexivity | left; reflexivity].
Defined.

Lemma preprocess_module_token_witness :
  raw_preprocess Sample.world 0 None
    (Sample.raw_with_module "/proj/env.yaml")
  = (Err (file_error "/proj/env.yaml"),
     with_calls [CExists "/proj/env.yaml"; CIsFile "/proj/env.yaml"]
       (with_dict [] (Sample.raw_with_module "/proj/env.yaml"))) /\
  fst (raw_preprocess Sample.world 0 None (Sample.raw_with_module "/proj"))
  = Ok 1 /\
  store (snd (raw_preprocess Sample.world 0 None
                (Sample.raw_with_module "/proj"))) !! 1
  = Some (ODict [("_module", VPath "/proj")]) /\
  store (snd (raw_preprocess Sample.world 0 None
                (Sample.raw_with_module "pkg"))) !! 1
  = Some (ODict [("_module", VPath "/proj/pkg")]) /\
  fst (raw_preprocess Sample.world 0 None (Sample.raw_with_module "nope"))
  = Err (unresolved_error "nope") /\
  fst (raw_preprocess Sample.world 0 None
         (Sample.raw_with_module "nope.sub"))
  = Err (ModuleNotFoundError "No module named 'nope'") /\
  fst (raw_preprocess Sample.world 0 None (Sample.raw_with_module "ns"))
  = Err TypeError.
Proof.
  pose proof (fun tok =>
    preprocess_module_token Sample.world 0 [("_module", VStr tok)] tok None
      (Sample.raw_with_module tok) eq_refl eq_refl) as H.
  split; [|split; [|split; [|split; [|split; [|split]]]]].
  - rewrite (H "/proj/env.yaml") by discriminate. reflexivity.
  - rewrite (H "/proj") by discriminate. reflexivity.
  - rewrite (H "/proj") by discriminate. reflexivity.
  - rewrite (H "pkg") by discriminate. reflexivity.
  - rewrite (H "nope") by discriminate. reflexivity.
  - rewrite (H "nope.sub") by discriminate. reflexivity.
  - rewrite (H "ns") by discriminate. reflexivity.
Defined.

Ltac solve_wf :=
  unfold wf_dict, dict_keys; simpl;
  repeat (apply NoDup_cons; split;
          [rewrite ?elem_of_cons, elem_of_nil; intuition discriminate|]);
  apply NoDup_nil; exact I.

Lemma init_merges_builtins_before_validation_witness :
  exists rest,
    calls (snd (__init__ Sample.world (SrcMapping 1) (Some "/proj")
                  (Sample.literal Sample.doc_user)))
    = CFindRoot
      :: CValidate [("user", VStr "bob"); ("cwd", VStr "{{cwd}}");
                    ("root", VStr "{{root}}"); ("here", VStr "{{here}}");
                    ("a", VDict 0)]
      :: rest.
Proof.
  destruct (init_merges_builtins_before_validation Sample.world
              (SrcMapping 1) (Some "/proj") 1 None
              [("user", VStr "bob"); ("a", VDict 0)]
              (Sample.literal Sample.doc_user)
              (Sample.literal Sample.doc_user) eq_refl eq_refl)
    as (_ & _ & rest & H); [solve_wf|].
  exists rest. exact H.
Defined.



(** The same document loaded from the file [/proj/env.yaml]:
    [env['_module']] is [/proj] and [env['a']['b']] is 1. *)
Example here_module_from_file :
  exists env st,
    __init__ Sample.world (SrcPath "env.yaml") None Sample.empty
    = (Ok env, st) /\
    fst (__getitem__ Sample.world env "_module" st)
    = Ok (Plain (VPath "/proj")) /\
    fst (Sample.get2 env "a" "b" st) = Ok (Plain (VInt 1)).
Proof.
  do 2 eexists. split; [vm_compute; reflexivity|].
  split; vm_compute; reflexivity.
Qed.

(** * Further properties of the overrides *)

Section MoreOverrides.

Variable W : World.

Lemma last_all_but_last (keys : list string) (k : string) :
  last keys = Some k -> keys = all_but_last keys ++ [k].
Proof.
  intros H. apply last_Some in H as [pre ->]. unfold all_but_last.
  rewrite length_app. simpl.
  replace (List.length pre + 1 - 1) with (List.length pre) by lia.
  now rewrite take_app_length.
Qed.

Lemma replace_value_needs_instance (self : loc) (v : value)
  (keys : list string) (st st' : state) :
  _replace_value W self v keys st = (Ok tt, st') ->
  exists e k, store st !! self = Some (OEnvDict e) /\ last keys = Some k.
Proof.
  unfold _replace_value, last_item, lift, bind at 1.
  destruct (last keys) as [k|]; [|discriminate].
  unfold bind at 1, read_inst.
  destruct (store st !! self) as [[d|e]|]; try discriminate.
  intros _. eauto.
Qed.

Lemma replace_value_err_store (self : loc) (v : value)
  (keys : list string) (x : exn) (st st' : state) :
  _replace_value W self v keys st = (Err x, st') -> store st' = store st.
Proof.
  destruct (last keys) as [k|] eqn:Hk.
  - destruct (store st !! self) as [[d|e]|] eqn:He.
    + unfold _replace_value, last_item, lift, bind at 1. rewrite Hk.
      unfold bind at 1, read_inst. rewrite He. now intros [= _ <-].
    + rewrite (replace_value_cases W self e v keys k st He Hk).
      destruct (fst (descend (VDict (_data e)) (all_but_last keys) st))
        as [y|y]; [|now intros [= _ <-]].
      destruct y; try (now intros [= _ <-]).
      destruct (store st !! l) as [[d|]|]; try (now intros [= _ <-]).
      destruct (dict_get d k) as [old|]; [|now intros [= _ <-]].
      destruct (expand_raw_value W (_expander e) (store st) v keys);
        destruct old; try discriminate; now intros [= _ <-].
    + unfold _replace_value, last_item, lift, bind at 1. rewrite Hk.
      unfold bind at 1, read_inst. rewrite He. now intros [= _ <-].
  - unfold _replace_value, last_item, lift, bind at 1. rewrite Hk.
    now intros [= _ <-].
Qed.

Lemma inplace_key_err_store (self : loc) (v : value) (key : string)
  (x : exn) (st st' : state) :
  _inplace_replace_flatten_key W self v key st = (Err x, st') ->
  store st' = store st.
Proof.
  unfold _inplace_replace_flatten_key.
  destruct (split key "__") as [|p0 ks]; [now intros [= _ <-]|].
  destruct (negb (String.eqb p0 "env")); [now intros [= _ <-]|].
  apply replace_value_err_store.
Qed.

(** X1.  An override that fails has written nothing.  Whatever the
    receiver, the value and the key path or flattened key,
    [_replace_value] and [_inplace_replace_flatten_key] leave the store
    as it was when they raise; [_replace_flatten_key] leaves it as it
    was but for the copy of the instance it made first. *)
Theorem failed_override_writes_nothing (self : loc) (v : value)
  (keys : list string) (key : string) (x : exn) (st st' : state) :
  (_replace_value W self v keys st = (Err x, st') ->
   store st' = store st) /\
  (_inplace_replace_flatten_key W self v key st = (Err x, st') ->
   store st' = store st) /\
  (forall e, store st !! self = Some (OEnvDict e) ->
     _replace_flatten_key W self v key st = (Err x, st') ->
     store st' = store st ++ [OEnvDict e]).
Proof.
  split; [apply replace_value_err_store|].
  split; [apply inplace_key_err_store|].
  intros e He. unfold _replace_flatten_key, bind at 1.
  rewrite (copy_spec self e st He). unfold bind.
  destruct (_inplace_replace_flatten_key W (List.length (store st)) v key
              (with_copy e st)) as [[u|y] s1] eqn:E; [discriminate|].
  intros [= <- <-]. exact (inplace_key_err_store _ _ _ _ _ _ E).
Qed.

(** X2.  An override that succeeds has written exactly one mapping, the
    one the keys before the last lead to, under a key that was bound
    there to something other than [None]: the keys of that mapping and
    their order are as before, every other object is as before, no object
    is added, and the one call made is the expansion of the value. *)
Theorem successful_override_writes_one_mapping (self : loc) (v : value)
  (keys : list string) (st st' : state) :
  _replace_value W self v keys st = (Ok tt, st') ->
  exists e k l d old x,
    store st !! self = Some (OEnvDict e) /\
    last keys = Some k /\
    fst (descend (VDict (_data e)) (all_but_last keys) st) = Ok (VDict l) /\
    store st !! l = Some (ODict d) /\
    dict_get d k = Some old /\ old <> VNone /\
    expand_raw_value W (_expander e) (store st) v keys = Ok x /\
    store st' !! l = Some (ODict (dict_set d k x)) /\
    dict_keys (dict_set d k x) = dict_keys d /\
    (forall l', l' <> l -> store st' !! l' = store st !! l') /\
    List.length (store st') = List.length (store st) /\
    calls st' = calls st ++ [CExpandValue (_expander e) v keys].
Proof.
  intros H. destruct (replace_value_needs_instance _ _ _ _ _ H)
    as (e & k & He & Hk).
  exists e, k. rewrite (replace_value_cases W self e v keys k st He Hk) in H.
  destruct (fst (descend (VDict (_data e)) (all_but_last keys) st))
    as [y|y]; [|discriminate].
  destruct y; try discriminate.
  destruct (store st !! l) as [[d|]|] eqn:Hl; try discriminate.
  destruct (dict_get d k) as [old|] eqn:Hget; [|discriminate].
  destruct (expand_raw_value W (_expander e) (store st) v keys) as [x|x]
    eqn:Hx; [|destruct old; discriminate].
  exists l, d, old, x.
  assert (Hold : old <> VNone) by (intros ->; discriminate).
  assert (Hst : st' = {| store := <[l := ODict (dict_set d k x)]> (store st);
                         calls := calls (logged (_expander e) v keys st) |})
    by (destruct old; try contradiction; now inversion H).
  subst st'. cbn [store calls logged].
  do 7 (split; [first [reflexivity | assumption]|]).
  split; [apply list_lookup_insert_eq; now apply lookup_lt_Some in Hl|].
  split; [eapply dict_set_keys_present; exact Hget|].
  split; [intros l' Hne; apply list_lookup_insert_ne; congruence|].
  split; [apply length_insert|reflexivity].
Qed.

Lemma descend_app (a b : list string) :
  forall d st,
    descend d (a ++ b) st =
    match descend d a st with
    | (Ok d', st1) => descend d' b st1
    | (Err x, st1) => (Err x, st1)
    end.
Proof.
  induction a as [|k r IH]; intros d st; [reflexivity|].
  simpl. unfold bind.
  destruct (subscript d k st) as [[d'|x] st1]; [apply IH|reflexivity].
Qed.

(** Reading a path gives the same in two stores that differ only in a
    mapping the path does not pass through. *)
Lemma descend_frame (l : loc) (st st' : state) :
  (forall l', l' <> l -> store st' !! l' = store st !! l') ->
  forall keys root,
    (forall j, j < List.length keys ->
       fst (descend root (take j keys) st) <> Ok (VDict l)) ->
    fst (descend root keys st') = fst (descend root keys st).
Proof.
  intros Hframe. induction keys as [|k r IH]; intros root Hpath;
    [reflexivity|].
  assert (Hroot : root <> VDict l).
  { intros ->. apply (Hpath 0); [simpl; lia|reflexivity]. }
  simpl. unfold bind.
  pose proof (subscript_state root k st) as Hs.
  pose proof (subscript_state root k st') as Hs'.
  assert (Hsub : fst (subscript root k st') = fst (subscript root k st)).
  { destruct root; try reflexivity. simpl. unfold bind, read_dict.
    rewrite Hframe by congruence.
    destruct (store st !! l0) as [[d|]|]; try reflexivity.
    now destruct (dict_get d k). }
  destruct (subscript root k st) as [[d1|x1] s1] eqn:E1;
    destruct (subscript root k st') as [[d2|x2] s2] eqn:E2;
    simpl in Hs, Hs', Hsub; subst; try discriminate; inversion Hsub; subst;
    [|reflexivity].
  apply IH. intros j Hj.
  specialize (Hpath (S j)). simpl in Hpath. unfold bind in Hpath.
  rewrite E1 in Hpath. apply Hpath. lia.
Qed.

(** X3.  Reading back what an override wrote.  When [_replace_value]
    succeeds and the mapping reached by the keys before the last is not
    reached by a shorter part of the path (as in any data without
    cycles), following the whole key path from the receiver's expanded
    mapping afterwards gives the expansion of the value that was
    passed. *)
Theorem override_then_read_back (self : loc) (e : EnvDictObj) (v : value)
  (keys : list string) (st st' : state) :
  store st !! self = Some (OEnvDict e) ->
  _replace_value W self v keys st = (Ok tt, st') ->
  (forall j, j < List.length (all_but_last keys) ->
     fst (descend (VDict (_data e)) (take j (all_but_last keys)) st)
     <> fst (descend (VDict (_data e)) (all_but_last keys) st)) ->
  exists x,
    expand_raw_value W (_expander e) (store st) v keys = Ok x /\
    fst (descend (VDict (_data e)) keys st') = Ok x.
Proof.
  intros He H Hpath.
  destruct (replace_value_needs_instance _ _ _ _ _ H) as (e' & k & He' & Hk).
  assert (e' = e) by congruence. subst e'. clear He'.
  destruct (replace_value_success W self e v keys k st st' He Hk H)
    as (l & d & old & x & Hd & Hl & Hget & Hold & Hx & Hst & _).
  exists x. split; [exact Hx|].
  rewrite Hd in Hpath.
  assert (Hframe : forall l', l' <> l -> store st' !! l' = store st !! l').
  { intros l' Hne. rewrite Hst. apply list_lookup_insert_ne. congruence. }
  pose proof (descend_frame l st st' Hframe (all_but_last keys)
                (VDict (_data e)) Hpath) as Hsame.
  rewrite Hd in Hsame.
  rewrite (last_all_but_last keys k Hk) at 1. rewrite descend_app.
  pose proof (descend_state (all_but_last keys) (VDict (_data e)) st') as Hs.
  destruct (descend (VDict (_data e)) (all_but_last keys) st')
    as [[y|y] s1]; simpl in Hs, Hsame; subst s1; [|discriminate].
  inversion Hsame. subst y. simpl. unfold bind, read_dict.
  rewrite Hst, list_lookup_insert_eq by (now apply lookup_lt_Some in Hl).
  rewrite dict_get_set_eq. reflexivity.
Qed.

Lemma getitem_eval (self : loc) (e : EnvDictObj) (pre data : dict)
  (key : string) (st : state) :
  store st !! self = Some (OEnvDict e) ->
  store st !! _preprocessed e = Some (ODict pre) ->
  store st !! _data e = Some (ODict data) ->
  __getitem__ W self key st =
    match dict_get pre key with
    | Some v => (Ok (FrozenJSON v), st)
    | None =>
        match dict_get data key with
        | Some v => (Ok (FrozenJSON v), st)
        | None => (Err (no_key_error W st e key), st)
        end
    end.
Proof.
  intros He Hp Hd.
  unfold __getitem__, _getitem, bind, read_inst, contains, subscript,
    bind, read_dict, ret.
  rewrite He. cbv beta iota. rewrite Hp. cbv beta iota.
  destruct (dict_get pre key) as [v|] eqn:Hv; cbv beta iota.
  - rewrite Hp. cbv beta iota. rewrite Hv. reflexivity.
  - rewrite Hd. cbv beta iota.
    destruct (dict_get data key) as [v|]; [reflexivity|].
    unfold raise, __repr__, bind, read_inst, get_store, ret.
    rewrite He. reflexivity.
Qed.

(** X4.  What a lookup sees after a top-level override.  After
    [_replace_value(v, [k])] has succeeded, [env[k]] is the expansion of
    [v], unless the preprocessed mapping binds [k]: then [env[k]] is still
    the preprocessed value, and the override, though written, is not seen
    through the lookup. *)
Theorem lookup_after_top_level_override (self : loc) (e : EnvDictObj)
  (pre : dict) (k : string) (v : value) (st st' : state) :
  store st !! self = Some (OEnvDict e) ->
  store st !! _preprocessed e = Some (ODict pre) ->
  _preprocessed e <> _data e ->
  _replace_value W self v [k] st = (Ok tt, st') ->
  exists x,
    expand_raw_value W (_expander e) (store st) v [k] = Ok x /\
    __getitem__ W self k st' =
      (Ok (FrozenJSON (match dict_get pre k with
                       | Some pv => pv
                       | None => x
                       end)), st').
Proof.
  intros He Hp Hne H.
  destruct (replace_value_success W self e v [k] k st st' He eq_refl H)
    as (l & d & old & x & Hd & Hl & Hget & Hold & Hx & Hst & _).
  simpl in Hd. inversion Hd. subst l. clear Hd.
  exists x. split; [exact Hx|].
  assert (Hself : self <> _data e) by (intros ->; congruence).
  rewrite (getitem_eval self e pre (dict_set d k x) k st').
  - rewrite dict_get_set_eq. now destruct (dict_get pre k).
  - rewrite Hst, list_lookup_insert_ne by congruence. exact He.
  - rewrite Hst, list_lookup_insert_ne by congruence. exact Hp.
  - rewrite Hst. apply list_lookup_insert_eq. now apply lookup_lt_Some in Hl.
Qed.

Lemma inplace_keys_app (self : loc) (a b : dict) :
  forall st,
    _inplace_replace_flatten_keys W self (a ++ b) st =
    match _inplace_replace_flatten_keys W self a st with
    | (Ok _, st1) => _inplace_replace_flatten_keys W self b st1
    | (Err x, st1) => (Err x, st1)
    end.
Proof.
  induction a as [|[k v] r IH]; intros st; [reflexivity|].
  simpl. unfold bind.
  destruct (_inplace_replace_flatten_key W self v k st) as [[u|x] st1];
    [apply IH|reflexivity].
Qed.

(** X5.  A bulk override is its entries applied one after the other, in
    the order of the mapping, to the one copy made at the start, and it
    is not atomic: when entry [(key, v)] raises after the entries [done]
    went through, the error is raised from the state those entries left,
    what they wrote stays written and the entries after it are not
    tried. *)
Theorem bulk_override_stops_at_first_failure (self : loc) (e : EnvDictObj)
  (done todo : dict) (key : string) (v : value) (x : exn)
  (st st1 st2 : state) :
  store st !! self = Some (OEnvDict e) ->
  _inplace_replace_flatten_keys W (List.length (store st)) done
    (with_copy e st) = (Ok tt, st1) ->
  _inplace_replace_flatten_key W (List.length (store st)) v key st1
  = (Err x, st2) ->
  _replace_flatten_keys W self (done ++ (key, v) :: todo) st = (Err x, st2) /\
  store st2 = store st1.
Proof.
  intros He Hdone Hfail. split.
  - unfold _replace_flatten_keys, bind at 1.
    rewrite (copy_spec self e st He). unfold bind at 1.
    rewrite inplace_keys_app, Hdone. simpl. unfold bind.
    now rewrite Hfail.
  - exact (inplace_key_err_store _ _ _ _ _ _ Hfail).
Qed.

End MoreOverrides.

(** * Further properties of preprocessing *)

(** ** One step of each primitive *)

Lemma get_method_eval (l : loc) (d : dict) (k : string) (st : state) :
  store st !! l = Some (ODict d) ->
  get_method (VDict l) k st =
  (Ok (match dict_get d k with Some x => x | None => VNone end), st).
Proof. intros H. unfold get_method, bind, read_dict. now rewrite H. Qed.

Lemma subscript_eval (l : loc) (d : dict) (k : string) (x : value)
  (st : state) :
  store st !! l = Some (ODict d) ->
  dict_get d k = Some x ->
  subscript (VDict l) k st = (Ok x, st).
Proof.
  intros H Hk. unfold subscript, bind, read_dict. now rewrite H, Hk.
Qed.

Lemma setitem_eval (l : loc) (d : dict) (k : string) (x : value)
  (st : state) :
  store st !! l = Some (ODict d) ->
  setitem (VDict l) k x st =
  (Ok tt, {| store := <[l := ODict (dict_set d k x)]> (store st);
             calls := calls st |}).
Proof.
  intros H. unfold setitem, bind, read_dict, write_dict. now rewrite H.
Qed.

Lemma setitem_new_dict (c : dict) (k : string) (x : value) (cs : list call)
  (st : state) :
  setitem (VDict (List.length (store st))) k x
    (with_calls cs (with_dict c st))
  = (Ok tt, with_calls cs (with_dict (dict_set c k x) st)).
Proof.
  rewrite (setitem_eval _ c) by apply lookup_alloc_new.
  unfold with_calls, with_dict. cbn [store calls].
  now rewrite insert_alloc_new.
Qed.

Lemma with_calls_nil (st : state) : with_calls [] st = st.
Proof. destruct st. unfold with_calls. simpl. now rewrite app_nil_r. Qed.

Lemma with_calls_app (a b : list call) (st : state) :
  with_calls b (with_calls a st) = with_calls (a ++ b) st.
Proof. unfold with_calls. simpl. now rewrite app_assoc. Qed.

Lemma truthy_state (v : value) (st : state) : snd (truthy v st) = st.
Proof.
  destruct v; try reflexivity. simpl. unfold bind, read_dict.
  now destruct (store st !! l) as [[d|]|].
Qed.

Lemma truthy_with_dict (v : value) (b : bool) (d : dict) (st : state) :
  fst (truthy v st) = Ok b ->
  truthy v (with_dict d st) = (Ok b, with_dict d st).
Proof.
  destruct v; simpl; unfold ret; simpl; intros H;
    try (inversion H; reflexivity).
  unfold bind, read_dict in *.
  destruct (store st !! l) as [[dd|]|] eqn:Hl; try discriminate.
  unfold with_dict at 1. cbn [store].
  rewrite (lookup_alloc_old _ _ _ _ Hl). simpl in H. now inversion H.
Qed.

Section MorePreprocessing.

Variable W : World.

Lemma raw_preprocess_eval (raw : loc) (d : dict) (p : option string)
  (st : state) :
  store st !! raw = Some (ODict d) ->
  raw_preprocess W raw p st =
  match dict_get d "_module" with
  | None => (Ok (List.length (store st)), with_dict [] st)
  | Some m =>
      match fst (truthy m (with_dict [] st)) with
      | Err x => (Err x, with_dict [] st)
      | Ok false => (Ok (List.length (store st)), with_dict [] st)
      | Ok true =>
          if is_here m
          then
            match p with
            | Some path =>
                (Ok (List.length (store st)),
                 with_dict [("_module", VPath (path_parent W path))] st)
            | None => (Err here_error, with_dict [] st)
            end
          else resolve_outcome W m st
      end
  end.
Proof.
  intros Hraw.
  assert (Hraw' : store (with_dict [] st) !! raw = Some (ODict d))
    by (now apply lookup_alloc_old).
  unfold raw_preprocess, bind.
  rewrite (get_method_eval raw d "_module" st Hraw).
  unfold alloc at 1. fold (with_dict [] st).
  destruct (dict_get d "_module") as [m|] eqn:Hm; [|reflexivity].
  pose proof (truthy_state m (with_dict [] st)) as Ht.
  destruct (truthy m (with_dict [] st)) as [[b|x] s1]; simpl in Ht;
    subst s1; [|reflexivity].
  cbn [fst]. destruct b; [|reflexivity].
  rewrite (subscript_eval raw d "_module" m _ Hraw' Hm).
  destruct (is_here m) eqn:Hh.
  - destruct p as [path|]; [|reflexivity].
    rewrite <- (with_calls_nil (with_dict [] st)).
    rewrite setitem_new_dict, with_calls_nil. reflexivity.
  - unfold resolve_outcome, Path, call_exists, call_is_file,
      call_find_spec, bind, log, ret, raise, file_error,
      unresolved_error, format.
    destruct m; try reflexivity; cbn [store calls];
      fold (with_calls [CExists s] (with_dict [] st)) ||
      fold (with_calls [CExists p0] (with_dict [] st)).
    + destruct (path_exists W s).
      * fold (with_calls [CIsFile s]
                (with_calls [CExists s] (with_dict [] st))).
        rewrite with_calls_app. cbn [app].
        destruct (path_is_file W s); [reflexivity|].
        rewrite setitem_new_dict. reflexivity.
      * fold (with_calls [CFindSpec s]
                (with_calls [CExists s] (with_dict [] st))).
        rewrite with_calls_app. cbn [app].
        destruct (find_spec W s) as [e| |[o|]]; try reflexivity.
        rewrite setitem_new_dict. reflexivity.
    + destruct (path_exists W p0); [|reflexivity].
      fold (with_calls [CIsFile p0]
              (with_calls [CExists p0] (with_dict [] st))).
      rewrite with_calls_app. cbn [app].
      destruct (path_is_file W p0); [reflexivity|].
      rewrite setitem_new_dict. reflexivity.
Qed.

(** X6.  [raw_preprocess] writes no object that was there before, the
    raw mapping included: it either raises before allocating anything,
    or leaves the store longer by one mapping, which is empty or binds
    only [_module], to a path; when it returns, it returns that
    mapping. *)
Theorem preprocess_result_shape (raw : loc) (p : option string)
  (r : result loc) (st st' : state) :
  raw_preprocess W raw p st = (r, st') ->
  (store st' = store st /\ exists x, r = Err x) \/
  exists c,
    store st' = store st ++ [ODict c] /\
    (c = [] \/ exists q, c = [("_module", VPath q)]) /\
    (forall l, r = Ok l -> l = List.length (store st)).
Proof.
  destruct (store st !! raw) as [[d|e]|] eqn:Hraw.
  - rewrite (raw_preprocess_eval raw d p st Hraw).
    assert (Hgoal : forall (r0 : result loc) c cs,
              (c = [] \/ (exists q, c = [("_module", VPath q)])) ->
              (forall l, r0 = Ok l -> l = List.length (store st)) ->
              (r0, with_calls cs (with_dict c st)) = (r, st') ->
              (store st' = store st /\ (exists x, r = Err x)) \/
              (exists c, store st' = store st ++ [ODict c] /\
                 (c = [] \/ (exists q, c = [("_module", VPath q)])) /\
                 (forall l, r = Ok l -> l = List.length (store st)))).
    { intros r0 c cs Hc Hr [= <- <-]. right. exists c.
      split; [reflexivity|]. split; [exact Hc|exact Hr]. }
    assert (Hplain : forall (r0 : result loc) c,
              (c = [] \/ (exists q, c = [("_module", VPath q)])) ->
              (forall l, r0 = Ok l -> l = List.length (store st)) ->
              (r0, with_dict c st) = (r, st') ->
              (store st' = store st /\ (exists x, r = Err x)) \/
              (exists c, store st' = store st ++ [ODict c] /\
                 (c = [] \/ (exists q, c = [("_module", VPath q)])) /\
                 (forall l, r = Ok l -> l = List.length (store st)))).
    { intros r0 c Hc Hr H. apply (Hgoal r0 c [] Hc Hr).
      now rewrite with_calls_nil. }
    destruct (dict_get d "_module") as [m|];
      [destruct (fst (truthy m (with_dict [] st))) as [[|]|x];
       [destruct (is_here m);
        [destruct p as [path|]
        |unfold resolve_outcome; destruct m;
         try destruct (path_exists W s);
         try destruct (path_is_file W s);
         try destruct (find_spec W s) as [?| |[?|]];
         try destruct (path_exists W p0);
         try destruct (path_is_file W p0)]| |]|];
      intros H;
      first [ eapply Hplain; [| |exact H] | eapply Hgoal; [| |exact H] ];
      first [ now left | right; eauto | idtac ];
      first [ discriminate | now intros l [= <-] ].
  - unfold raw_preprocess, bind at 1, get_method, bind at 1, read_dict.
    rewrite Hraw. intros [= <- <-]. left. eauto.
  - unfold raw_preprocess, bind at 1, get_method, bind at 1, read_dict.
    rewrite Hraw. intros [= <- <-]. left. eauto.
Qed.

(** X7.  A [_module] that is truthy but neither a string nor a path (a
    number, [True], a non-empty sequence or mapping) makes
    [raw_preprocess] raise [TypeError] when it builds the path, before
    any existence check or module lookup. *)
Theorem preprocess_rejects_non_string_module (raw : loc) (d : dict)
  (m : value) (p : option string) (st : state) :
  store st !! raw = Some (ODict d) ->
  dict_get d "_module" = Some m ->
  fst (truthy m st) = Ok true ->
  (forall s, m <> VStr s) ->
  (forall q, m <> VPath q) ->
  raw_preprocess W raw p st = (Err TypeError, with_dict [] st) /\
  calls (with_dict [] st) = calls st.
Proof.
  intros Hraw Hm Ht Hs Hq. split; [|reflexivity].
  rewrite (raw_preprocess_eval raw d p st Hraw), Hm.
  rewrite (truthy_with_dict m true [] st Ht). cbn [fst].
  destruct m; try reflexivity.
  - now destruct (Hs s).
  - now destruct (Hq p0).
Qed.

End MorePreprocessing.

(** * Further properties of lookup *)

Section MoreLookup.

Variable W : World.

(** X8.  The method [__getattr__] and item access agree.  Python calls
    [__getattr__] only after the ordinary attribute lookup has found
    nothing, so this says nothing of names the instance or its class
    already has ([keys], [get], [default], [path_to_env], [_data],
    [__len__] and the like).  Called with a name that does not both start
    and end with a double underscore, [__getattr__] returns what
    [__getitem__] returns whenever the key is bound (in the preprocessed
    or in the expanded mapping), and raises [AttributeError], not
    [KeyError], when it is not; called with a name of the form [__x__] it
    raises [AttributeError] even when that name is a key.  Nothing is
    written. *)
Theorem getattr_agrees_with_getitem (self : loc) (e : EnvDictObj)
  (pre data : dict) (key : string) (st : state) :
  store st !! self = Some (OEnvDict e) ->
  store st !! _preprocessed e = Some (ODict pre) ->
  store st !! _data e = Some (ODict data) ->
  __getattr__ W self key st =
    if startswith key "__" && endswith key "__"
    then (Err AttributeError, st)
    else
      match dict_get pre key, dict_get data key with
      | None, None => (Err AttributeError, st)
      | _, _ => __getitem__ W self key st
      end.
Proof.
  intros He Hp Hd. unfold __getattr__.
  destruct (startswith key "__" && endswith key "__"); [reflexivity|].
  unfold bind, __contains__.
  rewrite (getitem_eval W self e pre data key st He Hp Hd).
  destruct (dict_get pre key) as [v|] eqn:Hv; cbv beta iota.
  - rewrite (getitem_eval W self e pre data key st He Hp Hd), Hv.
    reflexivity.
  - destruct (dict_get data key) as [v|] eqn:Hv'; cbv beta iota.
    + rewrite (getitem_eval W self e pre data key st He Hp Hd), Hv, Hv'.
      reflexivity.
    + unfold no_key_error, __repr__, bind, read_inst, get_store, ret, raise.
      now rewrite He.
Qed.

(** X9.  Item assignment, then reading.  After [env[key] = v], iterating
    the instance lists the keys it listed before, in the same order, with
    [key] added at the end when it was not bound; the length follows; and
    [env[key]] is [v] wrapped, unless the preprocessed mapping binds
    [key], whose value is then still the one returned. *)
Theorem setitem_then_read (self : loc) (e : EnvDictObj) (pre data : dict)
  (key : string) (v : value) (st : state) :
  store st !! self = Some (OEnvDict e) ->
  store st !! _preprocessed e = Some (ODict pre) ->
  store st !! _data e = Some (ODict data) ->
  _preprocessed e <> _data e ->
  exists st',
    __setitem__ self key v st = (Ok tt, st') /\
    __iter__ self st' =
      (Ok (match dict_get data key with
           | Some _ => dict_keys data
           | None => dict_keys data ++ [key]
           end), st') /\
    __len__ self st' =
      (Ok (match dict_get data key with
           | Some _ => List.length data
           | None => S (List.length data)
           end), st') /\
    __getitem__ W self key st' =
      (Ok (FrozenJSON (match dict_get pre key with
                       | Some pv => pv
                       | None => v
                       end)), st').
Proof.
  intros He Hp Hd Hne.
  assert (Hself : self <> _data e) by (intros ->; congruence).
  assert (Hlt : _data e < List.length (store st))
    by (now apply lookup_lt_Some in Hd).
  eexists. split.
  { unfold __setitem__, bind, read_inst. rewrite He.
    rewrite (setitem_eval _ data _ _ _ Hd). reflexivity. }
  set (st' := {| store := <[_data e := ODict (dict_set data key v)]>
                            (store st);
                 calls := calls st |}).
  assert (He' : store st' !! self = Some (OEnvDict e))
    by (unfold st'; cbn [store];
        rewrite list_lookup_insert_ne by congruence; exact He).
  assert (Hp' : store st' !! _preprocessed e = Some (ODict pre))
    by (unfold st'; cbn [store];
        rewrite list_lookup_insert_ne by congruence; exact Hp).
  assert (Hd' : store st' !! _data e = Some (ODict (dict_set data key v)))
    by (unfold st'; cbn [store]; now apply list_lookup_insert_eq).
  split; [|split].
  - unfold __iter__, bind, read_inst, read_dict, ret. rewrite He', Hd'.
    destruct (dict_get data key) as [old|] eqn:Hk.
    + now rewrite (dict_set_keys_present data key v old Hk).
    + now rewrite (dict_set_keys_absent data key v Hk).
  - unfold __len__, bind, read_inst, read_dict, ret. rewrite He', Hd'.
    destruct (dict_get data key) as [old|] eqn:Hk.
    + pose proof (dict_set_keys_present data key v old Hk) as H.
      apply (f_equal (@List.length string)) in H.
      unfold dict_keys in H. rewrite !length_map in H. now rewrite H.
    + pose proof (dict_set_keys_absent data key v Hk) as H.
      apply (f_equal (@List.length string)) in H.
      unfold dict_keys in H. rewrite length_app, !length_map in H.
      simpl in H. rewrite H. f_equal. f_equal. lia.
  - rewrite (getitem_eval W self e pre (dict_set data key v) key st'
               He' Hp' Hd').
    rewrite dict_get_set_eq. now destruct (dict_get pre key).
Qed.

End MoreLookup.

(** * Flattened keys *)

Lemma prefix_split (a s : string) :
  String.prefix a s = true -> exists t, s = a +:+ t.
Proof.
  revert s. induction a as [|c a IH]; intros s H.
  - exists s. reflexivity.
  - destruct s as [|c' s]; [discriminate|]. simpl in H.
    destruct (ascii_dec c c') as [->|]; [|discriminate].
    destruct (IH s H) as [t ->]. exists t. reflexivity.
Qed.

Lemma append_cons (x : ascii) (a b : string) :
  String x a +:+ b = String x (a +:+ b).
Proof. reflexivity. Qed.

Lemma append_assoc' (a b c : string) : (a +:+ b) +:+ c = a +:+ (b +:+ c).
Proof.
  induction a as [|x a IH]; [reflexivity|].
  rewrite !append_cons. now f_equal.
Qed.

Lemma append_nil_r' (a : string) : a +:+ "" = a.
Proof.
  induction a as [|x a IH]; [reflexivity|].
  rewrite append_cons. now f_equal.
Qed.

Lemma append_length (a b : string) :
  String.length (a +:+ b) = String.length a + String.length b.
Proof.
  induction a as [|x a IH]; [reflexivity|].
  rewrite append_cons. simpl. now f_equal.
Qed.

(** Passing over the rest of a separator. *)
Lemma split_go_skip (sep t : string) :
  forall cur s, split_go sep (String.length t) cur (t +:+ s)
                = split_go sep 0 cur s.
Proof.
  induction t as [|c t IH]; intros cur s; [reflexivity|].
  simpl. apply IH.
Qed.

Lemma join_cons (sep x : string) (xs : list string) :
  xs <> [] -> join sep (x :: xs) = x +:+ sep +:+ join sep xs.
Proof. destruct xs; [contradiction|reflexivity]. Qed.

Lemma join_split_go (sep : string) :
  sep <> "" ->
  forall n s cur, String.length s <= n ->
    join sep (split_go sep 0 cur s) = cur +:+ s.
Proof.
  intros Hsep. induction n as [|n IH]; intros s cur Hn.
  - destruct s; [|simpl in Hn; lia]. simpl. now rewrite append_nil_r'.
  - destruct s as [|c r]; [simpl; now rewrite append_nil_r'|].
    cbn [split_go].
    destruct (String.prefix sep (String c r)) eqn:Hp.
    + destruct (prefix_split _ _ Hp) as [t Ht].
      destruct sep as [|c0 sep']; [contradiction|].
      simpl in Ht. injection Ht as -> ->.
      replace (String.length (String c0 sep') - 1)
        with (String.length sep') by (simpl; lia).
      rewrite split_go_skip.
      rewrite join_cons by apply split_go_nonempty.
      rewrite IH by (simpl in Hn; rewrite append_length in Hn; lia).
      reflexivity.
    + rewrite IH by (simpl in Hn; lia).
      now rewrite append_assoc'.
Qed.

(** X10.  Splitting a flattened key at its double underscores loses
    nothing: joining the segments with double underscores gives the key
    back.  So two flattened keys that split into the same segments are
    the same key, and different keys address different key paths or
    prefixes. *)
Theorem flattened_key_round_trip (key other : string) :
  join "__" (split key "__") = key /\
  (split key "__" = split other "__" -> key = other).
Proof.
  assert (H : forall s, join "__" (split s "__") = s).
  { intros s. unfold split.
    exact (join_split_go "__" ltac:(discriminate) (String.length s) s ""
             (le_n _)). }
  split; [apply H|].
  intros Heq. rewrite <- (H key), <- (H other). now rewrite Heq.
Qed.

(** * Further properties of loading and construction *)

(** A parsed document is allocated without a call and without writing an
    object that was there; a mapping, and only a mapping, becomes a
    reference to a new dictionary. *)
Lemma alloc_tree_spec :
  forall (t : tree) (st : state),
  exists v st',
    alloc_tree t st = (Ok v, st') /\
    calls st' = calls st /\
    (exists ext, store st' = store st ++ ext) /\
    match t with
    | TMap _ =>
        exists l d, v = VDict l /\ store st' !! l = Some (ODict d) /\
                    List.length (store st) <= l
    | _ => forall l, v <> VDict l
    end.
Proof.
  fix IH 1. intros t st.
  destruct t as [| b | n | s | ts | kvs].
  - exists VNone, st. simpl. repeat split;
      [exists []; now rewrite app_nil_r | discriminate].
  - exists (VBool b), st. simpl. repeat split;
      [exists []; now rewrite app_nil_r | discriminate].
  - exists (VInt n), st. simpl. repeat split;
      [exists []; now rewrite app_nil_r | discriminate].
  - exists (VStr s), st. simpl. repeat split;
      [exists []; now rewrite app_nil_r | discriminate].
  - simpl.
    match goal with |- context [bind (?g ts)] => set (go := g) end.
    assert (Hgo : forall st0, exists vs st1,
              go ts st0 = (Ok vs, st1) /\ calls st1 = calls st0 /\
              exists ext, store st1 = store st0 ++ ext).
    { induction ts as [|t r IHr]; intros st0.
      - exists [], st0. simpl. repeat split. exists [].
        now rewrite app_nil_r.
      - destruct (IH t st0) as (v & st1 & Hv & Hc & [e1 He1] & _).
        destruct (IHr st1) as (vs & st2 & Hvs & Hc2 & [e2 He2]).
        exists (v :: vs), st2. simpl. unfold bind. rewrite Hv.
        fold go. rewrite Hvs. unfold ret.
        split; [reflexivity|]. split; [congruence|].
        exists (e1 ++ e2). now rewrite He2, He1, app_assoc. }
    destruct (Hgo st) as (vs & st1 & Hvs & Hc & Hext).
    exists (VList vs), st1. unfold bind. rewrite Hvs. unfold ret.
    repeat split; [exact Hc | exact Hext | discriminate].
  - simpl.
    match goal with |- context [bind (?g kvs)] => set (go := g) end.
    assert (Hgo : forall st0, exists d st1,
              go kvs st0 = (Ok d, st1) /\ calls st1 = calls st0 /\
              exists ext, store st1 = store st0 ++ ext).
    { induction kvs as [|[k t] r IHr]; intros st0.
      - exists [], st0. simpl. repeat split. exists [].
        now rewrite app_nil_r.
      - destruct (IH t st0) as (v & st1 & Hv & Hc & [e1 He1] & _).
        destruct (IHr st1) as (d & st2 & Hd & Hc2 & [e2 He2]).
        exists ((k, v) :: d), st2. simpl. unfold bind. rewrite Hv.
        fold go. rewrite Hd. unfold ret.
        split; [reflexivity|]. split; [congruence|].
        exists (e1 ++ e2). now rewrite He2, He1, app_assoc. }
    destruct (Hgo st) as (d & st1 & Hd & Hc & [ext Hext]).
    eexists. eexists. unfold bind. rewrite Hd. unfold alloc, ret.
    split; [reflexivity|]. cbn [store calls].
    split; [exact Hc|].
    split; [exists (ext ++ [ODict (dict_merge [] d)]);
            now rewrite Hext, app_assoc|].
    exists (List.length (store st1)), (dict_merge [] d).
    split; [reflexivity|]. split; [apply lookup_alloc_new|].
    rewrite Hext, length_app. lia.
Qed.

Lemma represents_extend :
  forall (t : tree) (h ext : heap) (v : value),
  represents h t v -> represents (h ++ ext) t v.
Proof.
  fix IH 1. intros t h ext v.
  destruct t as [| b | n | s | ts | kvs]; destruct v as [| b' | n' | s' | p' | vs | l];
    simpl; try exact (fun H => H).
  - revert vs. induction ts as [|t r IHr]; intros [|v vs];
      try exact (fun H => H).
    intros [Hv Hr]. split; [now apply IH|now apply IHr].
  - intros (d & Hl & Hall). exists d.
    split; [now apply lookup_app_l_Some|].
    clear Hl. revert d Hall.
    induction kvs as [|[k t] r IHr]; intros [|[k' v] d];
      try exact (fun H => H).
    intros (Hk & Hv & Hr).
    split; [exact Hk|]. split; [now apply IH|now apply IHr].
Qed.

(** What [alloc_tree] returns holds the document it was given. *)
Lemma alloc_tree_represents :
  forall (t : tree) (st : state) (v : value) (st' : state),
  alloc_tree t st = (Ok v, st') -> represents (store st') t v.
Proof.
  fix IH 1. intros t st v st'.
  destruct t as [| b | n | s | ts | kvs].
  - intros [= <- <-]. exact I.
  - intros [= <- <-]. reflexivity.
  - intros [= <- <-]. reflexivity.
  - intros [= <- <-]. reflexivity.
  - simpl.
    match goal with |- context [bind (?g ts)] => set (go := g) end.
    set (all := fix all (ts : list tree) (vs : list value) {struct ts}
                  : Prop :=
           match ts, vs with
           | [], [] => True
           | t :: r, v :: r' => represents (store st') t v /\ all r r'
           | _, _ => False
           end).
    assert (Hgo : forall ext st0 vs st1,
              go ts st0 = (Ok vs, st1) ->
              store st' = store st1 ++ ext ->
              all ts vs).
    { induction ts as [|t r IHr]; intros ext st0 vs st1.
      - intros [= <- <-] _. exact I.
      - simpl. unfold bind.
        destruct (alloc_tree_spec t st0) as (v0 & s1 & Hv & _ & _ & _).
        rewrite Hv. fold go.
        destruct (go r s1) as [[vs0|x] s2] eqn:Hr; [|discriminate].
        unfold ret. intros [= <- <-] Hext.
        assert (Hmid : exists e2, store s2 = store s1 ++ e2).
        { clear -Hr IH. revert s1 vs0 s2 Hr.
          induction r as [|t' r' IHr']; intros s1 vs0 s2.
          - intros [= <- <-]. exists []. now rewrite app_nil_r.
          - simpl. unfold bind.
            destruct (alloc_tree_spec t' s1)
              as (w & s3 & Hw & _ & [e3 He3] & _).
            rewrite Hw. fold go.
            destruct (go r' s3) as [[ws|x] s4] eqn:Hr'; [|discriminate].
            unfold ret. intros [= <- <-].
            destruct (IHr' _ _ _ Hr') as [e4 He4].
            exists (e3 ++ e4). now rewrite He4, He3, app_assoc. }
        destruct Hmid as [e2 He2].
        split.
        + rewrite Hext, He2, <- app_assoc.
          apply represents_extend. exact (IH _ _ _ _ Hv).
        + exact (IHr ext s1 vs0 s2 Hr Hext). }
    unfold bind.
    destruct (go ts st) as [[vs|x] s1] eqn:Hvs; [|discriminate].
    unfold ret. intros [= <- <-].
    apply (Hgo [] st vs s1 Hvs). now rewrite app_nil_r.
  - simpl.
    match goal with |- context [bind (?g kvs)] => set (go := g) end.
    set (all := fix all (kvs : list (string * tree)) (d : dict)
                  {struct kvs} : Prop :=
           match kvs, d with
           | [], [] => True
           | (k, t) :: r, (k', v) :: r' =>
               k = k' /\ represents (store st') t v /\ all r r'
           | _, _ => False
           end).
    assert (Hgo : forall ext st0 d st1,
              go kvs st0 = (Ok d, st1) ->
              store st' = store st1 ++ ext ->
              all kvs d).
    { induction kvs as [|[k t] r IHr]; intros ext st0 d st1.
      - intros [= <- <-] _. exact I.
      - simpl. unfold bind.
        destruct (alloc_tree_spec t st0) as (v0 & s1 & Hv & _ & _ & _).
        rewrite Hv. fold go.
        destruct (go r s1) as [[d0|x] s2] eqn:Hr; [|discriminate].
        unfold ret. intros [= <- <-] Hext.
        assert (Hmid : exists e2, store s2 = store s1 ++ e2).
        { clear -Hr IH. revert s1 d0 s2 Hr.
          induction r as [|[k' t'] r' IHr']; intros s1 d0 s2.
          - intros [= <- <-]. exists []. now rewrite app_nil_r.
          - simpl. unfold bind.
            destruct (alloc_tree_spec t' s1)
              as (w & s3 & Hw & _ & [e3 He3] & _).
            rewrite Hw. fold go.
            destruct (go r' s3) as [[ws|x] s4] eqn:Hr'; [|discriminate].
            unfold ret. intros [= <- <-].
            destruct (IHr' _ _ _ Hr') as [e4 He4].
            exists (e3 ++ e4). now rewrite He4, He3, app_assoc. }
        destruct Hmid as [e2 He2].
        split; [reflexivity|]. split.
        + rewrite Hext, He2, <- app_assoc.
          apply represents_extend. exact (IH _ _ _ _ Hv).
        + exact (IHr ext s1 d0 s2 Hr Hext). }
    unfold bind.
    destruct (go kvs st) as [[d|x] s1] eqn:Hd; [|discriminate].
    unfold alloc, ret. intros [= <- <-]. cbn [store].
    exists d. split; [apply lookup_alloc_new|].
    exact (Hgo [ODict (dict_merge [] d)] st d s1 Hd eq_refl).
Qed.

Section MoreConstruction.

Variable W : World.

Lemma load_yaml_spec (p : string) (st : state) :
  match open_yaml W p with
  | OpenFails e => load_yaml W p st = (Err e, with_calls [COpen p] st)
  | ParseFails _ =>
      load_yaml W p st = (Err UnboundLocalError, with_calls [COpen p] st)
  | Parsed doc =>
      exists r st',
        load_yaml W p st = (r, st') /\
        calls st' = calls st ++ [COpen p] /\
        (exists ext, store st' = store st ++ ext) /\
        match doc with
        | TMap _ =>
            exists l, r = Ok l /\ represents (store st') doc (VDict l) /\
                      List.length (store st) <= l
        | _ => r = Err (not_a_dict_error p doc)
        end
  end.
Proof.
  unfold load_yaml, bind at 1, log.
  destruct (open_yaml W p) as [e|e|doc]; try reflexivity.
  destruct (alloc_tree_spec doc (with_calls [COpen p] st))
    as (v & st1 & Hv & Hc & Hext & Hshape).
  unfold with_calls in Hv, Hc, Hext, Hshape. cbn [store calls] in *.
  pose proof (alloc_tree_represents _ _ _ _ Hv) as Hrep.
  unfold bind. rewrite Hv. unfold not_a_dict_error, ret, raise.
  destruct doc;
    try (destruct v; try (exfalso; eapply Hshape; reflexivity);
         (eexists; eexists; split; [reflexivity|]; split; [exact Hc|];
          split; [exact Hext|reflexivity])).
  cbv beta iota in Hshape. destruct Hshape as (l & d & Hvl & Hl & Hle).
  subst v.
  exists (Ok l), st1. split; [reflexivity|]. split; [exact Hc|].
  split; [exact Hext|]. exists l.
  split; [reflexivity|]. split; [exact Hrep|exact Hle].
Qed.

(** X11.  Loading a path that exists.  The file is opened without any
    search.  An error of [open] is raised as it is; a document that does
    not parse ends in [UnboundLocalError], raised by the [finally] clause
    that reads [raw] before it was bound; a document that parses to
    anything but a mapping is rejected with a [ValueError] naming its
    type; a mapping is returned as a new dictionary that holds the
    document, its keys in order and under each what the document puts
    there, together with the resolved path.  No object that was there is
    written. *)
Theorem load_existing_path (p : string) (st : state) :
  path_exists W p = true ->
  match open_yaml W p with
  | OpenFails e =>
      load_from_source W (SrcPath p) st
      = (Err e, with_calls [CExists p; COpen p] st)
  | ParseFails _ =>
      load_from_source W (SrcPath p) st
      = (Err UnboundLocalError, with_calls [CExists p; COpen p] st)
  | Parsed doc =>
      exists r st',
        load_from_source W (SrcPath p) st = (r, st') /\
        calls st' = calls st ++ [CExists p; COpen p] /\
        (exists ext, store st' = store st ++ ext) /\
        match doc with
        | TMap _ =>
            exists l,
              r = Ok (l, Some (path_resolve W p)) /\
              represents (store st') doc (VDict l) /\
              List.length (store st) <= l
        | _ => r = Err (not_a_dict_error p doc)
        end
  end.
Proof.
  intros Hex.
  assert (Hstep : load_from_source W (SrcPath p) st =
            match load_yaml W p (with_calls [CExists p] st) with
            | (Ok raw, s) => (Ok (raw, Some (path_resolve W p)), s)
            | (Err x, s) => (Err x, s)
            end).
  { unfold load_from_source, bind at 1, call_exists, bind at 1, log, ret.
    rewrite Hex. cbn [negb]. unfold bind, ret.
    fold (with_calls [CExists p] st).
    now destruct (load_yaml W p (with_calls [CExists p] st)) as [[raw|x] s]. }
  rewrite Hstep. clear Hstep.
  pose proof (load_yaml_spec p (with_calls [CExists p] st)) as H.
  destruct (open_yaml W p) as [e|e|doc].
  - rewrite H, with_calls_app. reflexivity.
  - rewrite H, with_calls_app. reflexivity.
  - destruct H as (r & st' & Hl & Hc & Hext & Hdoc). rewrite Hl.
    assert (Hc' : calls st' = calls st ++ [CExists p; COpen p]).
    { rewrite Hc. unfold with_calls. cbn [calls].
      now rewrite <- app_assoc. }
    destruct doc;
      try (rewrite Hdoc;
           (eexists; eexists; split; [reflexivity|];
            split; [exact Hc'|]; split; [exact Hext|reflexivity])).
    destruct Hdoc as (l & -> & Hd & Hle).
    eexists; eexists; split; [reflexivity|].
    split; [exact Hc'|]. split; [exact Hext|].
    exists l. split; [reflexivity|]. split; [exact Hd|exact Hle].
Qed.

Lemma call_exists_eval (p : string) (st : state) :
  call_exists W p st = (Ok (path_exists W p), with_calls [CExists p] st).
Proof. reflexivity. Qed.

Lemma call_find_file_eval (name : string) (st : state) :
  call_find_file W name st
  = (Ok (find_file_recursively W name), with_calls [CFindFile name] st).
Proof. reflexivity. Qed.

(** X12.  Which file is loaded.  A path that does not exist is searched
    for by name, and the file found, not the path given, is the one
    opened and recorded.  With no source, the file named after the host
    is searched first and [env.yaml] only when that one is not found.
    When the search finds nothing, [FileNotFoundError] is raised, no file
    is opened and the store is as it was. *)
Theorem load_discovery (st : state) :
  (forall p, path_exists W p = false ->
     match find_file_recursively W p with
     | Some q =>
         load_from_source W (SrcPath p) st
         = located W q (load_yaml W q (with_calls [CExists p; CFindFile p] st))
     | None =>
         exists msg,
           load_from_source W (SrcPath p) st
           = (Err (FileNotFoundError msg),
              with_calls [CExists p; CFindFile p] st)
     end) /\
  match find_file_recursively W ("env." +:+ platform_node W +:+ ".yaml") with
  | Some q =>
      load_from_source W SrcNone st
      = located W q
          (load_yaml W q
             (with_calls
                [CFindFile ("env." +:+ platform_node W +:+ ".yaml")] st))
  | None =>
      match find_file_recursively W "env.yaml" with
      | Some q =>
          load_from_source W SrcNone st
          = located W q
              (load_yaml W q
                 (with_calls
                    [CFindFile ("env." +:+ platform_node W +:+ ".yaml");
                     CFindFile "env.yaml"] st))
      | None =>
          exists msg,
            load_from_source W SrcNone st
            = (Err (FileNotFoundError msg),
               with_calls
                 [CFindFile ("env." +:+ platform_node W +:+ ".yaml");
                  CFindFile "env.yaml"] st)
      end
  end.
Proof.
  split.
  - intros p Hex. unfold load_from_source, bind.
    rewrite call_exists_eval, Hex. cbv beta iota. cbn [negb].
    rewrite call_find_file_eval, with_calls_app. cbn [app].
    destruct (find_file_recursively W p) as [q|].
    + unfold ret, located.
      now destruct (load_yaml W q _) as [[raw|x] s].
    + eexists. reflexivity.
  - unfold load_from_source, find_env_w_name, bind.
    rewrite call_find_file_eval.
    destruct (find_file_recursively W
                ("env." +:+ platform_node W +:+ ".yaml")) as [q|].
    + unfold ret, located.
      now destruct (load_yaml W q _) as [[raw|x] s].
    + rewrite call_find_file_eval, with_calls_app. cbn [app].
      destruct (find_file_recursively W "env.yaml") as [q|].
      * unfold ret, located.
        now destruct (load_yaml W q _) as [[raw|x] s].
      * eexists. reflexivity.
Qed.

(** X13.  A raw mapping whose keys the validator rejects stops the
    construction there: the validator's error is raised, no existence
    check, module lookup or expansion has been made, and no instance is
    allocated; the store holds the built-ins and the merged mapping, and
    nothing else that is new. *)
Theorem rejected_keys_stop_construction (src : source)
  (path_to_here : option string) (l : loc) (p : option string) (d : dict)
  (x : exn) (st st1 : state) :
  load_from_source W src st = (Ok (l, p), st1) ->
  store st1 !! l = Some (ODict d) ->
  raw_data_keys W (store (merged_state W d path_to_here st1))
    (dict_merge (default_items W (is_given path_to_here)) d) = Some x ->
  __init__ W src path_to_here st =
    (Err x,
     with_calls
       [CValidate (dict_merge (default_items W (is_given path_to_here)) d)]
       (merged_state W d path_to_here st1)) /\
  store (merged_state W d path_to_here st1) =
    store st1 ++ [ODict (default_items W (is_given path_to_here));
                  ODict (dict_merge (default_items W (is_given path_to_here))
                                    d)].
Proof.
  intros Hload Hl Hv. split; [|reflexivity].
  rewrite (init_after_load W _ _ _ _ _ _ _ Hload Hl).
  unfold construct_from, bind at 1.
  rewrite (validate_spec W _ _ _ (merged_state_lookup W d path_to_here st1)).
  now rewrite Hv.
Qed.



End MoreConstruction.

(** * The further properties at work in the sample world *)

Lemma failed_override_writes_nothing_witness :
  store (snd (_replace_value Sample.world 7 (VInt 2) ["zz"]
                (Sample.built Sample.doc_ab)))
  = store (Sample.built Sample.doc_ab) /\
  store (snd (_replace_flatten_key Sample.world 7 (VInt 2) "env__zz"
                (Sample.built Sample.doc_ab)))
  = store (Sample.built Sample.doc_ab) ++ [OEnvDict Sample.inst_ab].
Proof.
  split.
  - apply (proj1 (failed_override_writes_nothing Sample.world 7 (VInt 2)
                    ["zz"] "env__zz" (missing_key_error ["zz"])
                    (Sample.built Sample.doc_ab)
                    (snd (_replace_value Sample.world 7 (VInt 2) ["zz"]
                            (Sample.built Sample.doc_ab))))).
    vm_compute; reflexivity.
  - apply (proj2 (proj2 (failed_override_writes_nothing Sample.world 7
                    (VInt 2) ["zz"] "env__zz" (missing_key_error ["zz"])
                    (Sample.built Sample.doc_ab)
                    (snd (_replace_flatten_key Sample.world 7 (VInt 2)
                            "env__zz" (Sample.built Sample.doc_ab)))))
             Sample.inst_ab);
      vm_compute; reflexivity.
Defined.

Lemma successful_override_writes_one_mapping_witness :
  exists e k l d old x,
    store (Sample.built Sample.doc_ab) !! 7 = Some (OEnvDict e) /\
    last ["a"; "b"] = Some k /\
    fst (descend (VDict (_data e)) (all_but_last ["a"; "b"])
           (Sample.built Sample.doc_ab)) = Ok (VDict l) /\
    store (Sample.built Sample.doc_ab) !! l = Some (ODict d) /\
    dict_get d k = Some old /\ old <> VNone /\
    expand_raw_value Sample.world (_expander e)
      (store (Sample.built Sample.doc_ab)) (VInt 2) ["a"; "b"] = Ok x /\
    store (snd (_replace_value Sample.world 7 (VInt 2) ["a"; "b"]
                  (Sample.built Sample.doc_ab))) !! l
    = Some (ODict (dict_set d k x)) /\
    dict_keys (dict_set d k x) = dict_keys d /\
    (forall l', l' <> l ->
       store (snd (_replace_value Sample.world 7 (VInt 2) ["a"; "b"]
                     (Sample.built Sample.doc_ab))) !! l'
       = store (Sample.built Sample.doc_ab) !! l') /\
    List.length
      (store (snd (_replace_value Sample.world 7 (VInt 2) ["a"; "b"]
                     (Sample.built Sample.doc_ab))))
    = List.length (store (Sample.built Sample.doc_ab)) /\
    calls (snd (_replace_value Sample.world 7 (VInt 2) ["a"; "b"]
                  (Sample.built Sample.doc_ab)))
    = calls (Sample.built Sample.doc_ab)
      ++ [CExpandValue (_expander e) (VInt 2) ["a"; "b"]].
Proof.
  apply (successful_override_writes_one_mapping Sample.world 7 (VInt 2)
           ["a"; "b"] (Sample.built Sample.doc_ab)).
  vm_compute; reflexivity.
Defined.

Lemma override_then_read_back_witness :
  exists x,
    expand_raw_value Sample.world (_expander Sample.inst_ab)
      (store (Sample.built Sample.doc_ab)) (VInt 2) ["a"; "b"] = Ok x /\
    fst (descend (VDict 6) ["a"; "b"]
           (snd (_replace_value Sample.world 7 (VInt 2) ["a"; "b"]
                   (Sample.built Sample.doc_ab)))) = Ok x.
Proof.
  apply (override_then_read_back Sample.world 7 Sample.inst_ab (VInt 2)
           ["a"; "b"] (Sample.built Sample.doc_ab)).
  - vm_compute; reflexivity.
  - vm_compute; reflexivity.
  - intros j Hj. change (j < 1) in Hj.
    assert (j = 0) by lia. subst j. vm_compute. discriminate.
Defined.

Lemma lookup_after_top_level_override_witness :
  (exists x,
     expand_raw_value Sample.world (_expander Sample.inst_ab)
       (store (Sample.built Sample.doc_ab)) (VStr "{{user}}-2") ["cwd"]
     = Ok x /\
     __getitem__ Sample.world 7 "cwd"
       (snd (_replace_value Sample.world 7 (VStr "{{user}}-2") ["cwd"]
               (Sample.built Sample.doc_ab)))
     = (Ok (FrozenJSON x),
        snd (_replace_value Sample.world 7 (VStr "{{user}}-2") ["cwd"]
               (Sample.built Sample.doc_ab)))) /\
  fst (__getitem__ Sample.world 7 "cwd"
         (snd (_replace_value Sample.world 7 (VStr "{{user}}-2") ["cwd"]
                 (Sample.built Sample.doc_ab))))
  = Ok (Plain (VStr "alice-2")) /\
  (exists x,
     expand_raw_value Sample.world (_expander Sample.inst_null)
       (store (Sample.built Sample.doc_pkg)) (VStr "other") ["_module"]
     = Ok x /\
     __getitem__ Sample.world 5 "_module"
       (snd (_replace_value Sample.world 5 (VStr "other") ["_module"]
               (Sample.built Sample.doc_pkg)))
     = (Ok (FrozenJSON (VPath "/proj/pkg")),
        snd (_replace_value Sample.world 5 (VStr "other") ["_module"]
               (Sample.built Sample.doc_pkg)))).
Proof.
  split; [|split].
  - apply (lookup_after_top_level_override Sample.world 7 Sample.inst_ab
             [] "cwd" (VStr "{{user}}-2") (Sample.built Sample.doc_ab));
      [vm_compute; reflexivity | vm_compute; reflexivity
      | discriminate | vm_compute; reflexivity].
  - vm_compute; reflexivity.
  - apply (lookup_after_top_level_override Sample.world 5 Sample.inst_null
             [("_module", VPath "/proj/pkg")] "_module" (VStr "other")
             (Sample.built Sample.doc_pkg));
      [vm_compute; reflexivity | vm_compute; reflexivity
      | discriminate | vm_compute; reflexivity].
Defined.

Lemma bulk_override_stops_at_first_failure_witness :
  fst (_replace_flatten_keys Sample.world 7
         [("env__a__b", VInt 2); ("a__b", VInt 3); ("env__user", VInt 4)]
         (Sample.built Sample.doc_ab))
  = Err prefix_error /\
  fst (Sample.get2 7 "a" "b"
         (snd (_replace_flatten_keys Sample.world 7
                 [("env__a__b", VInt 2); ("a__b", VInt 3);
                  ("env__user", VInt 4)]
                 (Sample.built Sample.doc_ab))))
  = Ok (Plain (VInt 2)).
Proof.
  destruct (bulk_override_stops_at_first_failure Sample.world 7
              Sample.inst_ab [("env__a__b", VInt 2)] [("env__user", VInt 4)]
              "a__b" (VInt 3) prefix_error (Sample.built Sample.doc_ab)
              (snd (_inplace_replace_flatten_keys Sample.world 8
                      [("env__a__b", VInt 2)]
                      (with_copy Sample.inst_ab
                         (Sample.built Sample.doc_ab))))
              (snd (_inplace_replace_flatten_keys Sample.world 8
                      [("env__a__b", VInt 2)]
                      (with_copy Sample.inst_ab
                         (Sample.built Sample.doc_ab)))))
    as [Hrun _]; [vm_compute; reflexivity ..|].
  simpl app in Hrun. rewrite Hrun. split; vm_compute; reflexivity.
Defined.

Lemma preprocess_result_shape_witness :
  exists c,
    store (snd (raw_preprocess Sample.world 0 None
                  (Sample.raw_with_module "pkg")))
    = store (Sample.raw_with_module "pkg") ++ [ODict c] /\
    (c = [] \/ exists q, c = [("_module", VPath q)]).
Proof.
  destruct (preprocess_result_shape Sample.world 0 None
              (fst (raw_preprocess Sample.world 0 None
                      (Sample.raw_with_module "pkg")))
              (Sample.raw_with_module "pkg")
              (snd (raw_preprocess Sample.world 0 None
                      (Sample.raw_with_module "pkg"))))
    as [[_ [x Hx]]|(c & Hc & Hshape & _)].
  - vm_compute; reflexivity.
  - vm_compute in Hx. discriminate.
  - exists c. split; assumption.
Defined.

Lemma preprocess_rejects_non_string_module_witness :
  raw_preprocess Sample.world 0 None (Sample.raw_with_value (VInt 5))
  = (Err TypeError, with_dict [] (Sample.raw_with_value (VInt 5))).
Proof.
  apply (preprocess_rejects_non_string_module Sample.world 0
           [("_module", VInt 5)] (VInt 5) None
           (Sample.raw_with_value (VInt 5)));
    [reflexivity | reflexivity | reflexivity | discriminate | discriminate].
Defined.

Lemma getattr_agrees_with_getitem_witness :
  __getattr__ Sample.world 7 "a" (Sample.built Sample.doc_ab)
  = __getitem__ Sample.world 7 "a" (Sample.built Sample.doc_ab) /\
  fst (__getattr__ Sample.world 7 "zz" (Sample.built Sample.doc_ab))
  = Err AttributeError.
Proof.
  pose proof (fun key =>
    getattr_agrees_with_getitem Sample.world 7 Sample.inst_ab []
      [("user", VStr "alice"); ("cwd", VStr "/work");
       ("root", VStr "/proj"); ("a", VDict 5)]
      key (Sample.built Sample.doc_ab) eq_refl eq_refl eq_refl) as H.
  split.
  - rewrite (H "a"). reflexivity.
  - rewrite (H "zz"). reflexivity.
Defined.

Lemma setitem_then_read_witness :
  exists st',
    __setitem__ 7 "new" (VInt 9) (Sample.built Sample.doc_ab) = (Ok tt, st') /\
    __iter__ 7 st' = (Ok ["user"; "cwd"; "root"; "a"; "new"], st') /\
    __len__ 7 st' = (Ok 5, st') /\
    __getitem__ Sample.world 7 "new" st' = (Ok (Plain (VInt 9)), st').
Proof.
  exact (setitem_then_read Sample.world 7 Sample.inst_ab []
           [("user", VStr "alice"); ("cwd", VStr "/work");
            ("root", VStr "/proj"); ("a", VDict 5)]
           "new" (VInt 9) (Sample.built Sample.doc_ab)
           eq_refl eq_refl eq_refl ltac:(discriminate)).
Defined.

Lemma flattened_key_round_trip_witness :
  join "__" (split "env__a___b" "__") = "env__a___b" /\
  split "env__a___b" "__" = ["env"; "a"; "_b"].
Proof.
  split; [|reflexivity].
  exact (proj1 (flattened_key_round_trip "env__a___b" "env__a___b")).
Defined.

Lemma load_existing_path_witness :
  exists r st',
    load_from_source Sample.world (SrcPath "/proj/env.yaml") Sample.empty
    = (r, st') /\
    calls st' = [CExists "/proj/env.yaml"; COpen "/proj/env.yaml"] /\
    (exists ext, store st' = [] ++ ext) /\
    exists l,
      r = Ok (l, Some "/proj/env.yaml") /\
      represents (store st') Sample.doc_here (VDict l) /\ 0 <= l.
Proof.
  exact (load_existing_path Sample.world "/proj/env.yaml" Sample.empty
           eq_refl).
Defined.

Lemma load_discovery_witness :
  exists msg,
    load_from_source Sample.world (SrcPath "other.yaml") Sample.empty
    = (Err (FileNotFoundError msg),
       with_calls [CExists "other.yaml"; CFindFile "other.yaml"]
         Sample.empty).
Proof.
  exact (proj1 (load_discovery Sample.world Sample.empty) "other.yaml"
           eq_refl).
Defined.

Lemma rejected_keys_stop_construction_witness :
  fst (__init__ Sample.strict (SrcMapping 0) None
         (Sample.literal Sample.doc_bad))
  = Err (ValueError "keys must not hold double underscores") /\
  calls (snd (__init__ Sample.strict (SrcMapping 0) None
                (Sample.literal Sample.doc_bad)))
  = [CFindRoot;
     CValidate [("user", VStr "{{user}}"); ("cwd", VStr "{{cwd}}");
                ("root", VStr "{{root}}"); ("a__b", VInt 1)]].
Proof.
  destruct (rejected_keys_stop_construction Sample.strict (SrcMapping 0)
              None 0 None [("a__b", VInt 1)]
              (ValueError "keys must not hold double underscores")
              (Sample.literal Sample.doc_bad)
              (Sample.literal Sample.doc_bad)
              eq_refl eq_refl eq_refl) as [H _].
  rewrite H. split; reflexivity.
Defined.

